(** * Redmine MCP server: the tracker client and the tool dispatcher

    A shallow embedding of [redmine-api.ts] (class [RedmineClient]) and of
    [index.ts] (start-up, the ten [server.tool] registrations and their
    handlers), with the theorems that settle the specification's claims.

    - JavaScript values are an inductive type [value]; objects are
      association lists in property-enumeration order.
    - Strings are byte strings: the UTF-8 text of a JavaScript string.
    - The functions of the JavaScript runtime the source calls
      ([String], [encodeURIComponent], [JSON.stringify], [Buffer.from],
      [Number], [AbortSignal.timeout]) and what [z.number()] of the
      installed [zod] makes of an infinity are the fields of the class
      [Runtime]: every theorem holds for any runtime.  [node_runtime] is
      an executable instance, used to evaluate the code on concrete inputs.
    - The remote tracker is a function from the requests seen so far and the
      current request to a reply.  Asynchronous code is written in a monad
      [M] that threads the request trace and a virtual clock and carries
      thrown errors; [Promise.all] starts all of its promises and rejects
      with the rejection that settles first. *)

From Stdlib Require Import ZArith String Ascii List Bool.
From Stdlib Require Import Strings.Byte.
From stdpp Require Import base option list strings gmap pretty.

Local Open Scope string_scope.
Local Open Scope Z_scope.

(** ** JavaScript values *)

(** A [number] is an integer, or a number that is not an integer (a
    fraction, or an infinity), which is carried by its decimal rendering.
    NaN is not a [number]: where the source can meet it, it is an absent
    result. *)
Inductive number : Type :=
  | Int (z : Z)
  | NonInt (repr : string).

#[warnings="-register-all"]
Inductive value : Type :=
  | VUndefined
  | VNull
  | VBool (b : bool)
  | VNum (n : number)
  | VStr (s : string)
  | VBytes (data : list byte)          (* a Uint8Array *)
  | VArr (items : list value)
  | VObj (fields : list (string * value)).

(** Objects: own enumerable properties in enumeration order. *)
Abbreviation obj := (list (string * value)).

(** Thrown values.  Everything thrown in this program is an [Error]
    instance, so [error instanceof Error ? error.message : String(error)]
    is [message]. *)
Record Error : Type := mkError { message : string }.

Inductive result (A : Type) : Type :=
  | Return (a : A)
  | Throw (e : Error).
Arguments Return {A} a.
Arguments Throw {A} e.

Definition is_Return {A} (r : result A) : bool :=
  match r with Return _ => true | Throw _ => false end.

(** ToBoolean. *)
Definition truthy (v : value) : bool :=
  match v with
  | VUndefined | VNull => false
  | VBool b => b
  | VNum (Int z) => negb (z =? 0)
  | VNum (NonInt _) => true
  | VStr s => negb (String.eqb s "")
  | VBytes _ | VArr _ | VObj _ => true
  end.

Definition is_undefined (v : value) : bool :=
  match v with VUndefined => true | _ => false end.

Definition is_null (v : value) : bool :=
  match v with VNull => true | _ => false end.

(** *** Properties *)

Section Props.
Context {V : Type}.

Fixpoint prop_lookup (k : string) (o : list (string * V)) : option V :=
  match o with
  | [] => None
  | (k', v) :: o' => if String.eqb k k' then Some v else prop_lookup k o'
  end.

(** [o[k] = v]: an existing property keeps its place, a new one goes last. *)
Fixpoint prop_set (k : string) (v : V) (o : list (string * V)) : list (string * V) :=
  match o with
  | [] => [(k, v)]
  | (k', v') :: o' =>
      if String.eqb k k' then (k, v) :: o' else (k', v') :: prop_set k v o'
  end.

(** [{ ...o1, ...o2 }] *)
Definition spread (o1 o2 : list (string * V)) : list (string * V) :=
  fold_left (fun acc kv => prop_set kv.1 kv.2 acc) o2 o1.

(** The rest of a destructuring pattern [{ k, ...rest }]. *)
Fixpoint prop_remove (k : string) (o : list (string * V)) : list (string * V) :=
  match o with
  | [] => []
  | (k', v') :: o' =>
      if String.eqb k k' then prop_remove k o' else (k', v') :: prop_remove k o'
  end.
End Props.

(** [o.k] on an object: [undefined] when the property is absent. *)
Definition obj_get (k : string) (o : obj) : value :=
  from_option id VUndefined (prop_lookup k o).

(** [k in o] *)
Definition obj_has (k : string) (o : obj) : bool :=
  bool_decide (is_Some (prop_lookup k o)).

Definition TypeError_read (v : value) (k : string) : Error :=
  mkError ("Cannot read properties of "
           +:+ (if is_null v then "null" else "undefined")
           +:+ " (reading '" +:+ k +:+ "')").

(** [v.k] on any value, for the property names this program reads
    ([issue], [projects], [trackers], [issue_statuses], [users],
    [issue_priorities], [upload], [token]): reading from [null] or
    [undefined] throws, and primitives, arrays and byte arrays have no such
    property. *)
Definition get_prop (v : value) (k : string) : result value :=
  match v with
  | VUndefined | VNull => Throw (TypeError_read v k)
  | VObj o => Return (obj_get k o)
  | _ => Return VUndefined
  end.

(** ** The runtime *)

(** The signal [AbortSignal.timeout(delay)] returns. *)
Record AbortSignal : Type := { delay : number }.

Class Runtime : Type := {
  (** [String(v)], also the conversion of a template literal *)
  ToString : value -> string;
  (** [encodeURIComponent(s)], which throws a [URIError] when [s] has a
      surrogate without its partner *)
  encodeURIComponent : string -> result string;
  (** [JSON.stringify(v)]; [None] is [undefined] *)
  JSON_stringify : value -> option string;
  (** [JSON.stringify(v, null, 2)] *)
  JSON_stringify_2 : value -> option string;
  (** [Buffer.from(v, "base64")], which throws when [v] is not a string *)
  Buffer_from_base64 : value -> result (list byte);
  (** [Number(s)]; [None] is NaN *)
  Number_ : string -> option number;
  (** whether the runtime has [AbortSignal.timeout] *)
  has_AbortSignal_timeout : bool;
  (** the [RangeError] that [AbortSignal.timeout] throws for a delay it
      does not take *)
  RangeError_delay : number -> Error;
  (** whether [z.number()] of the installed [zod] takes an infinity
      (version 3 does, version 4 does not) *)
  zod_takes_infinity : bool;
}.

(** [AbortSignal.timeout(delay)] takes the integers from 0 to 2^32 - 1 and
    throws a [RangeError] for every other number. *)
Definition valid_delay (n : number) : bool :=
  match n with
  | Int z => (0 <=? z) && (z <=? 4294967295)
  | NonInt _ => false
  end.

Definition AbortSignal_timeout `{Runtime} (n : number) : result AbortSignal :=
  if valid_delay n then Return {| delay := n |} else Throw (RangeError_delay n).

(** [f] on a returned value, and [l.map(f)] for an [f] that may throw: the
    first element on which [f] throws ends the loop. *)
Definition result_map {A B} (f : A -> B) (r : result A) : result B :=
  match r with
  | Return a => Return (f a)
  | Throw e => Throw e
  end.

Fixpoint map_result {A B} (f : A -> result B) (l : list A) : result (list B) :=
  match l with
  | [] => Return []
  | a :: l' =>
      match f a with
      | Return b => result_map (cons b) (map_result f l')
      | Throw e => Throw e
      end
  end.

(** A string or [undefined], as a value. *)
Definition of_text (o : option string) : value :=
  from_option VStr VUndefined o.

(** [s.endsWith(t)] and [s.includes(t)] *)
Fixpoint endsWith (s t : string) : bool :=
  String.eqb s t ||
  match s with
  | EmptyString => false
  | String _ s' => endsWith s' t
  end.

Fixpoint includes (s t : string) : bool :=
  String.prefix t s ||
  match s with
  | EmptyString => false
  | String _ s' => includes s' t
  end.

(** ** HTTP and the asynchronous monad *)

Inductive Method : Type := GET | POST | PUT.

(** The arguments of one [fetch(url, { method, headers, body, signal })]. *)
Record Request : Type := {
  req_url : string;
  req_method : Method;
  req_headers : list (string * string);
  req_body : value;                   (* a string, a byte array or undefined *)
  req_signal : option AbortSignal;
}.

(** What [fetch] resolves to: the status, the [content-type] header, and
    what the body readers [text()] and [json()] settle to. *)
Record Response : Type := {
  status : Z;
  content_type : option string;
  body_text : result string;
  body_json : result value;
}.

(** [response.ok] *)
Definition ok (r : Response) : bool :=
  (200 <=? status r) && (status r <=? 299).

(** The answer to one request: what the promise of [fetch] settles to, and
    after how long.  A rejection is a failure of the transport: no
    connection, or the abort that the timeout signal raises. *)
Record Reply : Type := {
  latency : nat;
  outcome : result Response;
}.

(** The tracker answers a request knowing the requests issued before it. *)
Definition Tracker : Type := list Request -> Request -> Reply.

Record State : Type := {
  trace : list (Request * Reply);
  clock : nat;
}.

Definition initial : State := {| trace := []; clock := 0 |}.

Definition M (A : Type) : Type := Tracker -> State -> result A * State.

Definition ret {A} (a : A) : M A := fun _ st => (Return a, st).

Definition throw {A} (e : Error) : M A := fun _ st => (Throw e, st).

Definition bind {A B} (m : M A) (k : A -> M B) : M B :=
  fun tk st =>
    match m tk st with
    | (Return a, st') => k a tk st'
    | (Throw e, st') => (Throw e, st')
    end.

(** [const x = await m; k] and [await m; k] *)
Notation "'let!' x ':=' m 'in' k" := (bind m (fun x => k))
  (at level 10, x name, m at level 100, k at level 200).
Notation "'do!' m 'in' k" := (bind m (fun _ => k))
  (at level 10, m at level 100, k at level 200).

(** [try { m } catch (error) { h error }] *)
Definition try_catch {A} (m : M A) (h : Error -> M A) : M A :=
  fun tk st =>
    match m tk st with
    | (Return a, st') => (Return a, st')
    | (Throw e, st') => h e tk st'
    end.

(** Awaiting something that has settled. *)
Definition settled {A} (r : result A) : M A :=
  match r with
  | Return a => ret a
  | Throw e => throw e
  end.

(** [await fetch(url, init)]: the request goes on the trace, the clock
    advances by the reply's latency. *)
Definition fetch (req : Request) : M Response :=
  fun tk st =>
    let rep := tk (map fst (trace st)) req in
    (outcome rep,
     {| trace := trace st ++ [(req, rep)];
        clock := (clock st + latency rep)%nat |}).

(** *** [Promise.all]

    Every promise is started at the current time, in list order (the
    promises of this program are client calls, which issue their one request
    as soon as they are called).  If all fulfil, the result is the list of
    their values, at the time the last one settles.  Otherwise the result is
    the rejection that settles first (the earlier in the list, among
    equals). *)
Fixpoint start_all {A} (ms : list (M A)) (t0 : nat) (tk : Tracker)
    (tr : list (Request * Reply)) : list (result A * nat) * list (Request * Reply) :=
  match ms with
  | [] => ([], tr)
  | m :: ms' =>
      let '(r, st') := m tk {| trace := tr; clock := t0 |} in
      let '(rs, tr') := start_all ms' t0 tk (trace st') in
      ((r, clock st') :: rs, tr')
  end.

Fixpoint first_rejection {A} (rs : list (result A * nat)) : option (Error * nat) :=
  match rs with
  | [] => None
  | (Return _, _) :: rs' => first_rejection rs'
  | (Throw e, t) :: rs' =>
      match first_rejection rs' with
      | Some (e', t') => if (t' <? t)%nat then Some (e', t') else Some (e, t)
      | None => Some (e, t)
      end
  end.

Fixpoint fulfilled {A} (rs : list (result A * nat)) : list A :=
  match rs with
  | [] => []
  | (Return a, _) :: rs' => a :: fulfilled rs'
  | (Throw _, _) :: rs' => fulfilled rs'
  end.

Definition Promise_all {A} (ms : list (M A)) : M (list A) :=
  fun tk st =>
    let '(rs, tr) := start_all ms (clock st) tk (trace st) in
    match first_rejection rs with
    | Some (e, t) => (Throw e, {| trace := tr; clock := t |})
    | None =>
        (Return (fulfilled rs),
         {| trace := tr; clock := foldr Nat.max (clock st) (map snd rs) |})
    end.

(** ** [types.ts]: the client's configuration *)

Module RedmineConfig.
Record t : Type := {
  url : string;
  apiKey : string;
  timeout : option number;
  insecureTls : option bool;
}.
End RedmineConfig.

(** ** [redmine-api.ts]: class [RedmineClient] *)

Module RedmineClient.
Section WithRuntime.
Context `{Runtime}.

Record t : Type := {
  baseUrl : string;
  headers : list (string * string);
  timeout : number;
  insecureTls : bool;
}.

(** [constructor(config)] *)
Definition new (config : RedmineConfig.t) : t :=
  {| baseUrl :=
       if endsWith (RedmineConfig.url config) "/"
       then RedmineConfig.url config
       else RedmineConfig.url config +:+ "/";
     headers :=
       [("X-Redmine-API-Key", RedmineConfig.apiKey config);
        ("Content-Type", "application/json")];
     timeout :=
       match RedmineConfig.timeout config with
       | Some n => if truthy (VNum n) then n else Int 30000
       | None => Int 30000
       end;
     insecureTls :=
       match RedmineConfig.insecureTls config with
       | Some b => b || false
       | None => false
       end |}.

(** [contentType && contentType.includes("application/json")] *)
Definition is_json (contentType : option string) : bool :=
  match contentType with
  | Some ct => truthy (VStr ct) && includes ct "application/json"
  | None => false
  end.

(** [AbortSignal.timeout ? AbortSignal.timeout(this.timeout) : undefined] *)
Definition timeout_signal (this : t) : result (option AbortSignal) :=
  if has_AbortSignal_timeout
  then result_map Some (AbortSignal_timeout (timeout this))
  else Return None.

(** [private async request(endpoint, method, data?, customHeaders?, rawBody?)].
    The argument of [fetch] is evaluated before the call: when
    [AbortSignal.timeout] throws, nothing is fetched.  The two
    [console.error] lines of the [catch] block write to the log only; the
    block rethrows. *)
Definition request (this : t) (endpoint : string) (method : Method)
    (data : value) (customHeaders : option (list (string * string)))
    (rawBody : bool) : M value :=
  try_catch
    (let url := baseUrl this +:+ endpoint in
     let headers := spread (headers this) (default [] customHeaders) in
     let body :=
       if rawBody then data
       else if truthy data then of_text (JSON_stringify data)
       else VUndefined in
     let! signal := settled (timeout_signal this) in
     let! response :=
       fetch {| req_url := url; req_method := method; req_headers := headers;
                req_body := body; req_signal := signal |} in
     if negb (ok response) then
       let! errorText := settled (body_text response) in
       throw (mkError ("HTTP " +:+ ToString (VNum (Int (status response)))
                       +:+ ": " +:+ errorText))
     else
       let contentType := content_type response in
       if is_json contentType then settled (body_json response)
       else let! s := settled (body_text response) in ret (VStr s))
    (fun error => throw error).

Definition getIssue (this : t) (id : value) : M value :=
  request this ("issues/" +:+ ToString id +:+ ".json") GET VUndefined None false.

Definition createIssue (this : t) (params : obj) : M value :=
  request this "issues.json" POST (VObj [("issue", VObj params)]) None false.

Definition updateIssue (this : t) (id : value) (params : obj) : M value :=
  request this ("issues/" +:+ ToString id +:+ ".json") PUT
    (VObj [("issue", VObj params)]) None false.

Definition queryParams (params : obj) : result string :=
  result_map (String.concat "&")
    (map_result
       (fun kv =>
          result_map (fun encoded => kv.1 +:+ "=" +:+ encoded)
            (encodeURIComponent (ToString kv.2)))
       (List.filter (fun kv => negb (is_undefined kv.2)) params)).

(** An [async] method: what [queryParams] throws rejects the promise. *)
Definition searchIssues (this : t) (params : obj) : M value :=
  let! queryParams := settled (queryParams params) in
  request this ("issues.json?" +:+ queryParams) GET VUndefined None false.

Definition getProjects (this : t) : M value :=
  request this "projects.json" GET VUndefined None false.

Definition getTrackers (this : t) : M value :=
  request this "trackers.json" GET VUndefined None false.

Definition getIssueStatuses (this : t) : M value :=
  request this "issue_statuses.json" GET VUndefined None false.

Definition getUsers (this : t) : M value :=
  request this "users.json" GET VUndefined None false.

Definition getIssuePriorities (this : t) : M value :=
  request this "enumerations/issue_priorities.json" GET VUndefined None false.

Definition uploadBinary (this : t) (data : value) : M value :=
  request this "uploads.json" POST data
    (Some [("Content-Type", "application/octet-stream")]) true.

Definition addIssueNote (this : t) (issueId notes : value) : M value :=
  request this ("issues/" +:+ ToString issueId +:+ ".json") PUT
    (VObj [("issue", VObj [("notes", notes)])]) None false.

Definition transitionIssue (this : t) (issueId statusId notes : value) : M value :=
  let issue := [("status_id", statusId)] in
  let issue := if truthy notes then prop_set "notes" notes issue else issue in
  request this ("issues/" +:+ ToString issueId +:+ ".json") PUT
    (VObj [("issue", VObj issue)]) None false.

Definition addAttachment (this : t) (issueId uploads : value) : M value :=
  request this ("issues/" +:+ ToString issueId +:+ ".json") PUT
    (VObj [("issue", VObj [("uploads", uploads)])]) None false.

End WithRuntime.
End RedmineClient.

(** ** [index.ts]: start-up *)

(** [a || b] on strings that may be [undefined], and [!a]. *)
Definition or_else (a b : option string) : option string :=
  match a with
  | Some s => if truthy (VStr s) then a else b
  | None => b
  end.

Definition absent (a : option string) : bool :=
  negb (truthy (of_text a)).

(** [args.indexOf(flag)]; [None] is [-1]. *)
Fixpoint indexOf (args : list string) (flag : string) : option nat :=
  match args with
  | [] => None
  | a :: args' => if String.eqb a flag then Some 0%nat else S <$> indexOf args' flag
  end.

Definition getArgValue (args : list string) (flag : string) : option string :=
  match indexOf args flag with
  | Some index => args !! (index + 1)%nat
  | None => None
  end.

(** [Number.isNaN(n)], for the result of [Number(s)]. *)
Definition isNaN (n : option number) : bool :=
  match n with
  | Some _ => false
  | None => true
  end.

(** The module-level constants that are left when start-up has passed its
    checks. *)
Record Globals : Type := {
  REDMINE_URL : string;
  REDMINE_API_KEY : string;
  DEFAULT_PROJECT_ID : option number;
}.

(** [const redmineClient = new RedmineClient({ url: REDMINE_URL, apiKey:
    REDMINE_API_KEY })]: the client of the tools is built from the URL and
    the key alone. *)
Definition redmineClient (globals : Globals) : RedmineClient.t :=
  RedmineClient.new
    {| RedmineConfig.url := REDMINE_URL globals;
       RedmineConfig.apiKey := REDMINE_API_KEY globals;
       RedmineConfig.timeout := None;
       RedmineConfig.insecureTls := None |}.

(** The top level of [index.ts] up to the construction of the client, on the
    command line [argv] and the environment [env] (after [dotenv]).  [None] is
    [process.exit(1)]. *)
Definition main `{Runtime} (argv : list string) (env : gmap string string)
    : option Globals :=
  let args := drop 2 argv in
  let SERVER_API_KEY := or_else (env !! "MCP_API_KEY") (getArgValue args "--api-key") in
  if absent SERVER_API_KEY then None else
  let url := env !! "REDMINE_URL" in
  let apiKey := env !! "REDMINE_API_KEY" in
  let DEFAULT_PROJECT_ID_RAW := env !! "REDMINE_DEFAULT_PROJECT_ID" in
  let provided :=
    match DEFAULT_PROJECT_ID_RAW with
    | Some raw => negb (String.eqb raw "")
    | None => false
    end in
  let default_project :=
    if provided then Number_ (default "" DEFAULT_PROJECT_ID_RAW) else None in
  if provided && isNaN default_project then None else
  if absent url || absent apiKey then None else
  Some {| REDMINE_URL := default "" url;
          REDMINE_API_KEY := default "" apiKey;
          DEFAULT_PROJECT_ID := default_project |}.

(** ** [index.ts]: the tools *)

(** The result of a tool call, [{ content: [{ type, text }], isError }].
    [text] is what [JSON.stringify] or a template literal gave ([None] is
    [undefined]); [isError] is [false] where the source leaves the flag out. *)
Record TextContent : Type := {
  type : string;
  text : option string;
}.

Record CallToolResult : Type := {
  content : list TextContent;
  isError : bool;
}.

(** [{ content: [{ type: "text", text }] }] *)
Definition text_result (text : option string) : CallToolResult :=
  {| content := [{| type := "text"; text := text |}]; isError := false |}.

(** The [catch] block every handler ends with. *)
Definition error_result (error : Error) : CallToolResult :=
  {| content := [{| type := "text"; text := Some ("Error: " +:+ message error) |}];
     isError := true |}.

Definition missing_project_id : CallToolResult :=
  {| content :=
       [{| type := "text";
           text := Some "Missing required project_id. Set REDMINE_DEFAULT_PROJECT_ID or pass project_id explicitly." |}];
     isError := true |}.

(** *** Argument schemas ([zod]) *)

Inductive ZodBase : Type := ZodNumber | ZodString.

Record ZodType : Type := { base : ZodBase; is_optional : bool }.

Module z.
Definition number : ZodType := {| base := ZodNumber; is_optional := false |}.
Definition string : ZodType := {| base := ZodString; is_optional := false |}.
Definition optional (t : ZodType) : ZodType :=
  {| base := base t; is_optional := true |}.
End z.

Abbreviation Shape := (list (string * ZodType)).

(** An infinity, by its rendering. *)
Definition is_infinite (n : number) : bool :=
  match n with
  | Int _ => false
  | NonInt repr => String.eqb repr "Infinity" || String.eqb repr "-Infinity"
  end.

(** [t.safeParse(v).success] for the types used here: [z.number()] takes
    every finite number (NaN, which it refuses, is not a [number]) and an
    infinity when the installed [zod] does, [z.string()] takes any string,
    and [.optional()] also [undefined]. *)
Definition accepts `{Runtime} (t : ZodType) (v : value) : bool :=
  match v, base t with
  | VUndefined, _ => is_optional t
  | VNum n, ZodNumber => negb (is_infinite n) || zod_takes_infinity
  | VStr _, ZodString => true
  | _, _ => false
  end.

(** [z.object(shape).safeParse(data)]: every key of the shape is checked,
    keys outside the shape are dropped, and a key of the shape is kept when
    it is in the data or its value is defined.  [None] is a failed parse. *)
Fixpoint parse `{Runtime} (shape : Shape) (data : obj) : option obj :=
  match shape with
  | [] => Some []
  | (k, t) :: shape' =>
      let v := obj_get k data in
      if accepts t v then
        rest ← parse shape' data;
        Some (if is_undefined v && negb (obj_has k data) then rest
              else (k, v) :: rest)
      else None
  end.

(** *** The handlers *)

Module Tools.
Section WithGlobals.
Context `{Runtime}.
Variable globals : Globals.

Let redmineClient := redmineClient globals.
Let DEFAULT_PROJECT_ID := DEFAULT_PROJECT_ID globals.

Definition Handler : Type := obj -> M CallToolResult.

Definition catch (error : Error) : M CallToolResult :=
  ret (error_result error).

Definition create_issue_schema : Shape :=
  [("project_id", z.optional z.number);
   ("subject", z.string);
   ("description", z.optional z.string);
   ("tracker_id", z.optional z.number);
   ("status_id", z.optional z.number);
   ("priority_id", z.optional z.number);
   ("assigned_to_id", z.optional z.number);
   ("start_date", z.optional z.string);
   ("due_date", z.optional z.string)].

(** [{ ..._params }] is a copy with the same properties in the same
    order: the list itself. *)
Definition create_issue : Handler := fun _params =>
  try_catch
    (let params := _params in
     let send (params : obj) : M CallToolResult :=
       let! response := RedmineClient.createIssue redmineClient params in
       let! issue := settled (get_prop response "issue") in
       ret (text_result (JSON_stringify_2 issue)) in
     if is_undefined (obj_get "project_id" params)
        || is_null (obj_get "project_id" params)
     then
       match DEFAULT_PROJECT_ID with
       | Some id => send (prop_set "project_id" (VNum id) params)
       | None => ret missing_project_id
       end
     else send params)
    catch.

Definition update_issue_schema : Shape :=
  [("issue_id", z.number);
   ("subject", z.optional z.string);
   ("description", z.optional z.string);
   ("tracker_id", z.optional z.number);
   ("status_id", z.optional z.number);
   ("priority_id", z.optional z.number);
   ("assigned_to_id", z.optional z.number);
   ("start_date", z.optional z.string);
   ("due_date", z.optional z.string)].

Definition update_issue : Handler := fun args =>
  let issue_id := obj_get "issue_id" args in
  let params := prop_remove "issue_id" args in
  try_catch
    (do! RedmineClient.updateIssue redmineClient issue_id params in
     let! updatedIssue := RedmineClient.getIssue redmineClient issue_id in
     let! issue := settled (get_prop updatedIssue "issue") in
     ret (text_result (JSON_stringify_2 issue)))
    catch.

Definition list_projects : Handler := fun _ =>
  try_catch
    (let! response := RedmineClient.getProjects redmineClient in
     let! projects := settled (get_prop response "projects") in
     ret (text_result (JSON_stringify_2 projects)))
    catch.

Definition list_trackers_statuses : Handler := fun _ =>
  try_catch
    (let! responses :=
       Promise_all [RedmineClient.getTrackers redmineClient;
                    RedmineClient.getIssueStatuses redmineClient] in
     let trackersResponse := nth 0 responses VUndefined in
     let statusesResponse := nth 1 responses VUndefined in
     let! trackers := settled (get_prop trackersResponse "trackers") in
     let! statuses := settled (get_prop statusesResponse "issue_statuses") in
     ret (text_result
            (JSON_stringify_2
               (VObj [("trackers", trackers); ("statuses", statuses)]))))
    catch.

Definition read_issue_schema : Shape := [("issue_id", z.number)].

Definition read_issue : Handler := fun args =>
  let issue_id := obj_get "issue_id" args in
  try_catch
    (let! response := RedmineClient.getIssue redmineClient issue_id in
     let! issue := settled (get_prop response "issue") in
     ret (text_result (JSON_stringify_2 issue)))
    catch.

Definition add_issue_note_schema : Shape :=
  [("issue_id", z.number); ("notes", z.string)].

Definition add_issue_note : Handler := fun args =>
  let issue_id := obj_get "issue_id" args in
  let notes := obj_get "notes" args in
  try_catch
    (do! RedmineClient.addIssueNote redmineClient issue_id notes in
     let! updatedIssue := RedmineClient.getIssue redmineClient issue_id in
     let! issue := settled (get_prop updatedIssue "issue") in
     ret (text_result (JSON_stringify_2 issue)))
    catch.

Definition transition_issue_schema : Shape :=
  [("issue_id", z.number);
   ("status_id", z.number);
   ("notes", z.optional z.string)].

Definition transition_issue : Handler := fun args =>
  let issue_id := obj_get "issue_id" args in
  let status_id := obj_get "status_id" args in
  let notes := obj_get "notes" args in
  try_catch
    (do! RedmineClient.transitionIssue redmineClient issue_id status_id notes in
     let! updatedIssue := RedmineClient.getIssue redmineClient issue_id in
     let! issue := settled (get_prop updatedIssue "issue") in
     ret (text_result (JSON_stringify_2 issue)))
    catch.

Definition find_issues_schema : Shape :=
  [("project_id", z.optional z.number);
   ("status_id", z.optional z.number);
   ("tracker_id", z.optional z.number);
   ("assigned_to_id", z.optional z.number);
   ("query", z.optional z.string);
   ("limit", z.optional z.number);
   ("offset", z.optional z.number)].

Definition find_issues : Handler := fun params =>
  try_catch
    (let! response := RedmineClient.searchIssues redmineClient params in
     ret (text_result (JSON_stringify_2 response)))
    catch.

Definition add_attachment_schema : Shape :=
  [("issue_id", z.number);
   ("filename", z.string);
   ("data_base64", z.string);
   ("content_type", z.optional z.string);
   ("description", z.optional z.string)].

Definition add_attachment : Handler := fun args =>
  let issue_id := obj_get "issue_id" args in
  let filename := obj_get "filename" args in
  let data_base64 := obj_get "data_base64" args in
  let content_type := obj_get "content_type" args in
  let description := obj_get "description" args in
  try_catch
    (let! bytes := settled (Buffer_from_base64 data_base64) in
     let binaryData := VBytes bytes in
     let! uploadResponse := RedmineClient.uploadBinary redmineClient binaryData in
     let! uploaded := settled (get_prop uploadResponse "upload") in
     let! token := settled (get_prop uploaded "token") in
     let upload :=
       VObj [("token", token);
             ("filename", filename);
             ("content_type", content_type);
             ("description", description)] in
     do! RedmineClient.addAttachment redmineClient issue_id (VArr [upload]) in
     let! updatedIssue := RedmineClient.getIssue redmineClient issue_id in
     let! issue := settled (get_prop updatedIssue "issue") in
     ret (text_result (JSON_stringify_2 issue)))
    catch.

Definition get_metadata : Handler := fun _ =>
  try_catch
    (let! responses :=
       Promise_all [RedmineClient.getProjects redmineClient;
                    RedmineClient.getTrackers redmineClient;
                    RedmineClient.getIssueStatuses redmineClient;
                    RedmineClient.getUsers redmineClient] in
     let projectsResponse := nth 0 responses VUndefined in
     let trackersResponse := nth 1 responses VUndefined in
     let statusesResponse := nth 2 responses VUndefined in
     let usersResponse := nth 3 responses VUndefined in
     let! prioritiesResponse :=
       try_catch
         (RedmineClient.getIssuePriorities redmineClient)
         (fun _ => ret (VObj [("issue_priorities", VArr [])])) in
     let! projects := settled (get_prop projectsResponse "projects") in
     let! trackers := settled (get_prop trackersResponse "trackers") in
     let! statuses := settled (get_prop statusesResponse "issue_statuses") in
     let! users := settled (get_prop usersResponse "users") in
     let! priorities := settled (get_prop prioritiesResponse "issue_priorities") in
     let metadata :=
       VObj [("projects", projects);
             ("trackers", trackers);
             ("statuses", statuses);
             ("users", users);
             ("priorities", priorities)] in
     ret (text_result (JSON_stringify_2 metadata)))
    catch.

(** The [server.tool(name, schema, handler)] registrations, in order. *)
Definition tools : list (string * (Shape * Handler)) :=
  [("create_issue", (create_issue_schema, create_issue));
   ("update_issue", (update_issue_schema, update_issue));
   ("list_projects", ([], list_projects));
   ("list_trackers_statuses", ([], list_trackers_statuses));
   ("read_issue", (read_issue_schema, read_issue));
   ("add_issue_note", (add_issue_note_schema, add_issue_note));
   ("transition_issue", (transition_issue_schema, transition_issue));
   ("find_issues", (find_issues_schema, find_issues));
   ("add_attachment", (add_attachment_schema, add_attachment));
   ("get_metadata", ([], get_metadata))].

End WithGlobals.
End Tools.

(** *** The dispatcher

    What the protocol library does with a [tools/call] request: it finds the
    registration by name, parses the arguments with [z.object(schema)], and
    calls the handler on the parsed arguments only when the parse succeeds. *)
Inductive CallOutcome : Type :=
  | MethodNotFound
  | InvalidParams
  | Handled (r : result CallToolResult).

Definition call_tool `{Runtime} (globals : Globals) (name : string)
    (arguments : obj) (tk : Tracker) (st : State) : CallOutcome * State :=
  match prop_lookup name (Tools.tools globals) with
  | None => (MethodNotFound, st)
  | Some (shape, handler) =>
      match parse shape arguments with
      | None => (InvalidParams, st)
      | Some args =>
          let '(r, st') := handler args tk st in (Handled r, st')
      end
  end.

(** The requests a computation has issued. *)
Definition requests (st : State) : list Request := map fst (trace st).

(** ** An executable runtime

    [node_runtime] computes what Node.js computes on the values used in the
    examples of this file: integers and ASCII strings, arrays and objects of
    them.  ([Number] reads signed decimal integers only, and the base64
    decoder reads the standard alphabet.)  Its [z.number()] is that of
    [zod] 4. *)

Module Node.

Definition newline : string := String (ascii_of_N 10) "".

Definition join (sep : string) (l : list string) : string := String.concat sep l.

Definition number_text (n : number) : string :=
  match n with
  | Int z => pretty z
  | NonInt repr => repr
  end.

Fixpoint ToString (v : value) : string :=
  match v with
  | VUndefined => "undefined"
  | VNull => "null"
  | VBool b => if b then "true" else "false"
  | VNum n => number_text n
  | VStr s => s
  | VBytes data => join "," (map (fun b => pretty (Byte.to_N b)) data)
  | VArr items =>
      join "," (map (fun x => if is_undefined x || is_null x then ""
                              else ToString x) items)
  | VObj _ => "[object Object]"
  end.

Definition hex_digit (n : N) : ascii :=
  ascii_of_N (if (n <? 10)%N then 48 + n else 55 + n)%N.

Definition unreserved (c : ascii) : bool :=
  let n := N_of_ascii c in
  ((48 <=? n) && (n <=? 57) || (65 <=? n) && (n <=? 90)
   || (97 <=? n) && (n <=? 122))%N
  || bool_decide (c ∈ ["-"; "_"; "."; "!"; "~"; "*"; "'"; "("; ")"]%char).

Fixpoint percent_encode (s : string) : string :=
  match s with
  | EmptyString => EmptyString
  | String c s' =>
      if unreserved c then String c (percent_encode s')
      else String "%" (String (hex_digit (N_of_ascii c / 16))
             (String (hex_digit (N_of_ascii c mod 16)) (percent_encode s')))
  end.

(** A surrogate without its partner is written like any other code point:
    three bytes, the first 237 and the second from 160. *)
Fixpoint lone_surrogate (s : string) : bool :=
  match s with
  | EmptyString => false
  | String c s' =>
      match s' with
      | EmptyString => false
      | String d _ =>
          ((N_of_ascii c =? 237) && (160 <=? N_of_ascii d))%N || lone_surrogate s'
      end
  end.

Definition encodeURIComponent (s : string) : result string :=
  if lone_surrogate s then Throw (mkError "URI malformed")
  else Return (percent_encode s).

Definition lower_hex_digit (n : N) : ascii :=
  ascii_of_N (if (n <? 10)%N then 48 + n else 87 + n)%N.

Definition dquote : ascii := ascii_of_N 34.
Definition backslash : ascii := ascii_of_N 92.

Definition esc (c : ascii) : string := String backslash (String c "").

Fixpoint escape (s : string) : string :=
  match s with
  | EmptyString => EmptyString
  | String c s' =>
      let n := N_of_ascii c in
      (if (n =? 34)%N then esc dquote
       else if (n =? 92)%N then esc backslash
       else if (n =? 8)%N then esc "b"
       else if (n =? 12)%N then esc "f"
       else if (n =? 10)%N then esc "n"
       else if (n =? 13)%N then esc "r"
       else if (n =? 9)%N then esc "t"
       else if (n <? 32)%N then
         esc "u" +:+ "00" +:+ String (lower_hex_digit (n / 16))
                            (String (lower_hex_digit (n mod 16)) "")
       else String c "")
      +:+ escape s'
  end.

Definition quote (s : string) : string :=
  String dquote (escape s) +:+ String dquote "".

Fixpoint spaces (n : nat) : string :=
  match n with
  | O => ""
  | S n' => String " " (spaces n')
  end.

(** One array or object, with the members already printed. *)
Definition group (open close : string) (indent : bool) (depth : nat)
    (members : list string) : string :=
  match members with
  | [] => open +:+ close
  | _ =>
      if indent then
        open +:+ newline +:+ spaces (2 * S depth)
        +:+ join ("," +:+ newline +:+ spaces (2 * S depth)) members
        +:+ newline +:+ spaces (2 * depth) +:+ close
      else open +:+ join "," members +:+ close
  end.

Definition member (indent : bool) (k printed : string) : string :=
  quote k +:+ (if indent then ": " else ":") +:+ printed.

Definition number_json (n : number) : string :=
  match n with
  | Int z => pretty z
  | NonInt repr =>
      if String.eqb repr "Infinity" || String.eqb repr "-Infinity"
      then "null" else repr
  end.

Fixpoint stringify (indent : bool) (depth : nat) (v : value) : option string :=
  match v with
  | VUndefined => None
  | VNull => Some "null"
  | VBool b => Some (if b then "true" else "false")
  | VNum n => Some (number_json n)
  | VStr s => Some (quote s)
  | VBytes data =>
      Some (group "{" "}" indent depth
              (imap (fun i b => member indent (pretty i) (pretty (Byte.to_N b))) data))
  | VArr items =>
      Some (group "[" "]" indent depth
              (map (fun x => default "null" (stringify indent (S depth) x)) items))
  | VObj fields =>
      Some (group "{" "}" indent depth
              (omap (fun kv =>
                       match kv with
                       | (k, x) => member indent k <$> stringify indent (S depth) x
                       end) fields))
  end.

Definition sextet (c : ascii) : option N :=
  let n := N_of_ascii c in
  if ((65 <=? n) && (n <=? 90))%N then Some (n - 65)%N
  else if ((97 <=? n) && (n <=? 122))%N then Some (n - 71)%N
  else if ((48 <=? n) && (n <=? 57))%N then Some (n + 4)%N
  else if (n =? 43)%N then Some 62%N
  else if (n =? 47)%N then Some 63%N
  else None.

(** The sextets of a base64 text, up to the padding. *)
Fixpoint sextets (s : string) : list N :=
  match s with
  | EmptyString => []
  | String c s' =>
      if Ascii.eqb c "=" then []
      else match sextet c with
           | Some n => n :: sextets s'
           | None => sextets s'
           end
  end.

Definition byte_of (n : N) : byte := default x00 (Byte.of_N (n mod 256)).

Fixpoint octets (fuel : nat) (l : list N) : list byte :=
  match fuel with
  | O => []
  | S fuel' =>
      match l with
      | a :: b :: c :: d :: l' =>
          byte_of (a * 4 + b / 16) :: byte_of (b * 16 + c / 4)
          :: byte_of (c * 64 + d) :: octets fuel' l'
      | [a; b; c] => [byte_of (a * 4 + b / 16); byte_of (b * 16 + c / 4)]
      | [a; b] => [byte_of (a * 4 + b / 16)]
      | _ => []
      end
  end%N.

Definition Buffer_from_base64 (v : value) : result (list byte) :=
  match v with
  | VStr s => let l := sextets s in Return (octets (S (length l)) l)
  | _ => Throw (mkError "The first argument must be of type string or an instance of Buffer, ArrayBuffer, or Array or an Array-like Object.")
  end.

Fixpoint digits (s : string) (acc : N) : option N :=
  match s with
  | EmptyString => Some acc
  | String c s' =>
      let n := N_of_ascii c in
      if ((48 <=? n) && (n <=? 57))%N then digits s' (acc * 10 + (n - 48))%N
      else None
  end.

Definition Number_ (s : string) : option number :=
  match s with
  | EmptyString => Some (Int 0)
  | String "-" (String c s') => (fun n => Int (- Z.of_N n)) <$> digits (String c s') 0
  | _ => (fun n => Int (Z.of_N n)) <$> digits s 0
  end.

Definition RangeError_delay (n : number) : Error :=
  mkError ("The value of " +:+ quote "delay" +:+ " is out of range. It must be "
           +:+ match n with
               | Int _ => ">= 0 && <= 4294967295"
               | NonInt _ => "an integer"
               end
           +:+ ". Received " +:+ number_text n).

End Node.

Definition node_runtime : Runtime :=
  {| ToString := Node.ToString;
     encodeURIComponent := Node.encodeURIComponent;
     JSON_stringify := Node.stringify false 0;
     JSON_stringify_2 := Node.stringify true 0;
     Buffer_from_base64 := Node.Buffer_from_base64;
     Number_ := Node.Number_;
     has_AbortSignal_timeout := true;
     RangeError_delay := Node.RangeError_delay;
     zod_takes_infinity := false |}.

(** ** Vocabulary of the theorems *)

(** The public methods of the client, with their arguments. *)
Inductive ClientOp : Type :=
  | GetIssue (id : value)
  | CreateIssue (params : obj)
  | UpdateIssue (id : value) (params : obj)
  | SearchIssues (params : obj)
  | GetProjects
  | GetTrackers
  | GetIssueStatuses
  | GetUsers
  | GetIssuePriorities
  | UploadBinary (data : value)
  | AddIssueNote (issueId notes : value)
  | TransitionIssue (issueId statusId notes : value)
  | AddAttachment (issueId uploads : value).

Definition perform `{Runtime} (this : RedmineClient.t) (op : ClientOp) : M value :=
  match op with
  | GetIssue id => RedmineClient.getIssue this id
  | CreateIssue params => RedmineClient.createIssue this params
  | UpdateIssue id params => RedmineClient.updateIssue this id params
  | SearchIssues params => RedmineClient.searchIssues this params
  | GetProjects => RedmineClient.getProjects this
  | GetTrackers => RedmineClient.getTrackers this
  | GetIssueStatuses => RedmineClient.getIssueStatuses this
  | GetUsers => RedmineClient.getUsers this
  | GetIssuePriorities => RedmineClient.getIssuePriorities this
  | UploadBinary data => RedmineClient.uploadBinary this data
  | AddIssueNote issueId notes => RedmineClient.addIssueNote this issueId notes
  | TransitionIssue issueId statusId notes =>
      RedmineClient.transitionIssue this issueId statusId notes
  | AddAttachment issueId uploads => RedmineClient.addAttachment this issueId uploads
  end.

Section Reading.
Context `{Runtime}.

(** The request [request] hands to [fetch]. *)
Definition build (this : RedmineClient.t) (endpoint : string) (method : Method)
    (data : value) (customHeaders : option (list (string * string)))
    (rawBody : bool) : Request :=
  {| req_url := RedmineClient.baseUrl this +:+ endpoint;
     req_method := method;
     req_headers :=
       spread (RedmineClient.headers this) (default [] customHeaders);
     req_body :=
       if rawBody then data
       else if truthy data then of_text (JSON_stringify data)
       else VUndefined;
     req_signal :=
       if has_AbortSignal_timeout
       then Some {| delay := RedmineClient.timeout this |}
       else None |}.

(** Whether [request] gets its timeout signal: the runtime has no
    [AbortSignal.timeout], or that takes the client's timeout. *)
Definition usable (this : RedmineClient.t) : bool :=
  negb has_AbortSignal_timeout || valid_delay (RedmineClient.timeout this).

(** The error [request] throws on a response that is not [ok]. *)
Definition HTTP_error (r : Response) (errorText : string) : Error :=
  mkError ("HTTP " +:+ ToString (VNum (Int (status r))) +:+ ": " +:+ errorText).

(** What [request] makes of a response, and of a reply. *)
Definition resolve (r : Response) : result value :=
  if ok r then
    if RedmineClient.is_json (content_type r) then body_json r
    else match body_text r with
         | Return s => Return (VStr s)
         | Throw e => Throw e
         end
  else match body_text r with
       | Return errorText => Throw (HTTP_error r errorText)
       | Throw e => Throw e
       end.

Definition settle (rep : Reply) : result value :=
  match outcome rep with
  | Return r => resolve r
  | Throw e => Throw e
  end.

(** The state after one more request. *)
Definition after (st : State) (req : Request) (rep : Reply) : State :=
  {| trace := trace st ++ [(req, rep)];
     clock := (clock st + latency rep)%nat |}.

(** The query string as the specification words it: one [key=value] pair,
    the value URL-encoded, for each field that is not [undefined]; there is
    none when a value cannot be encoded. *)
Fixpoint query_pairs (params : obj) : result (list string) :=
  match params with
  | [] => Return []
  | (_, VUndefined) :: rest => query_pairs rest
  | (key, v) :: rest =>
      match encodeURIComponent (ToString v) with
      | Return encoded =>
          result_map (cons (key +:+ "=" +:+ encoded)) (query_pairs rest)
      | Throw e => Throw e
      end
  end.

(** The path of each client operation under the base URL; a search whose
    values cannot be encoded has none. *)
Definition endpoint (op : ClientOp) : result string :=
  match op with
  | GetIssue id | UpdateIssue id _ | AddIssueNote id _
  | TransitionIssue id _ _ | AddAttachment id _ =>
      Return ("issues/" +:+ ToString id +:+ ".json")
  | CreateIssue _ => Return "issues.json"
  | SearchIssues params =>
      result_map (fun pairs => "issues.json?" +:+ String.concat "&" pairs)
        (query_pairs params)
  | GetProjects => Return "projects.json"
  | GetTrackers => Return "trackers.json"
  | GetIssueStatuses => Return "issue_statuses.json"
  | GetUsers => Return "users.json"
  | GetIssuePriorities => Return "enumerations/issue_priorities.json"
  | UploadBinary _ => Return "uploads.json"
  end.

Definition path (op : ClientOp) : string :=
  match endpoint op with
  | Return p => p
  | Throw _ => ""
  end.

Definition priorities_url (this : RedmineClient.t) : string :=
  RedmineClient.baseUrl this +:+ "enumerations/issue_priorities.json".

(** The one request of each client operation (of one that has a path). *)
Definition request_of (this : RedmineClient.t) (op : ClientOp) : Request :=
  match op with
  | GetIssue _ | SearchIssues _ | GetProjects | GetTrackers
  | GetIssueStatuses | GetUsers | GetIssuePriorities =>
      build this (path op) GET VUndefined None false
  | CreateIssue params =>
      build this (path op) POST (VObj [("issue", VObj params)]) None false
  | UpdateIssue _ params =>
      build this (path op) PUT (VObj [("issue", VObj params)]) None false
  | UploadBinary data =>
      build this (path op) POST data
        (Some [("Content-Type", "application/octet-stream")]) true
  | AddIssueNote _ notes =>
      build this (path op) PUT
        (VObj [("issue", VObj [("notes", notes)])]) None false
  | TransitionIssue _ statusId notes =>
      build this (path op) PUT
        (VObj [("issue",
                VObj (if truthy notes
                      then [("status_id", statusId); ("notes", notes)]
                      else [("status_id", statusId)]))]) None false
  | AddAttachment _ uploads =>
      build this (path op) PUT
        (VObj [("issue", VObj [("uploads", uploads)])]) None false
  end.

(** What a client operation does before it fetches: it comes to its
    request, or throws because a value of a search cannot be encoded or
    because the timeout is refused. *)
Definition prepare (this : RedmineClient.t) (op : ClientOp) : result Request :=
  match endpoint op with
  | Return _ =>
      if usable this then Return (request_of this op)
      else Throw (RangeError_delay (RedmineClient.timeout this))
  | Throw e => Throw e
  end.

(** The trace entries of operations started together, after [tr]. *)
Fixpoint fan_out (this : RedmineClient.t) (ops : list ClientOp) (tk : Tracker)
    (tr : list (Request * Reply)) : list (Request * Reply) :=
  match ops with
  | [] => []
  | op :: ops' =>
      let req := request_of this op in
      let rep := tk (map fst tr) req in
      (req, rep) :: fan_out this ops' tk (tr ++ [(req, rep)])
  end.

(** An envelope that reports a response that was not [ok]: its text has
    the status code and the text of the response body. *)
Definition reports (env : CallToolResult) (response : Response)
    (errorText : string) : Prop :=
  content env =
    [{| type := "text";
        text := Some ("Error: HTTP " +:+ ToString (VNum (Int (status response)))
                      +:+ ": " +:+ errorText) |}].

(** A run of a handler reports the remote failures in its trace: a
    response that is not [ok], to a request other than the priorities
    fetch, gives an error envelope, which reports that response when no
    other request of the run failed. *)
Definition failure_reported (g : Globals) (run : result CallToolResult * State)
    : Prop :=
  forall pre req rep post response,
    trace run.2 = (pre ++ (req, rep) :: post)%list ->
    outcome rep = Return response -> ok response = false ->
    req_url req <> priorities_url (redmineClient g) ->
    exists env, run.1 = Return env /\ isError env = true
      /\ forall errorText, body_text response = Return errorText ->
           Forall (fun x => is_Return (settle x.2) = true) (pre ++ post)%list ->
           reports env response errorText.

(** When each of them settles, and to what. *)
Definition settlements (t0 : nat) (entries : list (Request * Reply))
    : list (result value * nat) :=
  map (fun x => (settle x.2, (t0 + latency x.2)%nat)) entries.
End Reading.

Definition is_nullish (v : value) : bool := is_undefined v || is_null v.

(** A configuration with the TLS flag replaced. *)
Definition with_insecureTls (flag : option bool) (config : RedmineConfig.t)
    : RedmineConfig.t :=
  {| RedmineConfig.url := RedmineConfig.url config;
     RedmineConfig.apiKey := RedmineConfig.apiKey config;
     RedmineConfig.timeout := RedmineConfig.timeout config;
     RedmineConfig.insecureTls := flag |}.

(** ** Concrete inputs *)

Module Example.

Definition config : RedmineConfig.t :=
  {| RedmineConfig.url := "https://redmine.example";
     RedmineConfig.apiKey := "secret";
     RedmineConfig.timeout := None;
     RedmineConfig.insecureTls := None |}.

Definition with_default : Globals :=
  {| REDMINE_URL := "https://redmine.example";
     REDMINE_API_KEY := "secret";
     DEFAULT_PROJECT_ID := Some (Int 3) |}.

Definition without_default : Globals :=
  {| REDMINE_URL := "https://redmine.example";
     REDMINE_API_KEY := "secret";
     DEFAULT_PROJECT_ID := None |}.

(** A configuration whose timeout [AbortSignal.timeout] refuses. *)
Definition impatient : RedmineConfig.t :=
  {| RedmineConfig.url := "https://redmine.example";
     RedmineConfig.apiKey := "secret";
     RedmineConfig.timeout := Some (Int (-1));
     RedmineConfig.insecureTls := None |}.

(** The text of a string that is one surrogate without its partner. *)
Definition surrogate : string :=
  String (ascii_of_N 237) (String (ascii_of_N 160) (String (ascii_of_N 128) "")).

Definition json_reply (v : value) : Reply :=
  {| latency := 1;
     outcome := Return {| status := 200;
                          content_type := Some "application/json; charset=utf-8";
                          body_text := Return "";
                          body_json := Return v |} |}.

Definition not_found : Reply :=
  {| latency := 1;
     outcome := Return {| status := 404;
                          content_type := Some "text/html";
                          body_text := Return "Not Found";
                          body_json := Throw (mkError "Unexpected token") |} |}.

Definition issue : value :=
  VObj [("id", VNum (Int 7)); ("subject", VStr "Printer on fire")].

Definition everything : value :=
  VObj [("issue", issue);
        ("projects", VArr [VObj [("id", VNum (Int 1)); ("name", VStr "Ops")]]);
        ("trackers", VArr [VObj [("id", VNum (Int 1)); ("name", VStr "Bug")]]);
        ("issue_statuses", VArr [VObj [("id", VNum (Int 1)); ("name", VStr "New")]]);
        ("users", VArr []);
        ("issue_priorities", VArr [VObj [("id", VNum (Int 2)); ("name", VStr "High")]]);
        ("upload", VObj [("token", VStr "7.abc")])].

(** A tracker that answers every request with the same JSON document. *)
Definition obliging : Tracker := fun _ _ => json_reply everything.

(** A tracker that answers 404 to everything. *)
Definition missing : Tracker := fun _ _ => not_found.

(** A tracker without the priorities enumeration. *)
Definition no_priorities : Tracker := fun _ req =>
  if String.eqb (req_url req)
       "https://redmine.example/enumerations/issue_priorities.json"
  then not_found else json_reply everything.

(** A tracker whose priorities enumeration is empty. *)
Definition empty_priorities : Tracker := fun _ req =>
  if String.eqb (req_url req)
       "https://redmine.example/enumerations/issue_priorities.json"
  then json_reply (VObj [("issue_priorities", VArr [])])
  else json_reply everything.

(** A tracker whose trackers endpoint cannot be reached, and which answers
    404 to everything else, later. *)
Definition unreachable_trackers : Tracker := fun _ req =>
  if String.eqb (req_url req) "https://redmine.example/trackers.json"
  then {| latency := 1; outcome := Throw (mkError "fetch failed") |}
  else {| latency := 2; outcome := outcome not_found |}.

(** An environment that asks for a 5 s timeout and relaxed TLS. *)
Definition env : gmap string string :=
  <["MCP_API_KEY" := "mcp"]>
    (<["REDMINE_URL" := "https://redmine.example"]>
       (<["REDMINE_API_KEY" := "secret"]>
          (<["REDMINE_TIMEOUT_MS" := "5000"]>
             (<["REDMINE_INSECURE_TLS" := "true"]> ∅)))).

Definition argv : list string := ["node"; "index.js"].

End Example.

(** ** What a run sends *)

Section Vocab.
Context `{Runtime}.
(** A run from [st] has sent at most [limit] requests, each with the
    property [P]. *)
Definition sends (limit : nat) (P : Request -> Prop) (st : State)
    (run : result CallToolResult * State) : Prop :=
  exists new,
    requests run.2 = (requests st ++ new)%list
    /\ (length new <= limit)%nat
    /\ Forall P new.

(** The request of some operation of the server's client. *)
Definition client_request (g : Globals) (req : Request) : Prop :=
  exists op, req = request_of (redmineClient g) op.

(** The path of the issue a tool was called for. *)
Definition issue_path (args : obj) : string :=
  "issues/" +:+ ToString (obj_get "issue_id" args) +:+ ".json".

(** A request that goes to the issue of the call or, for [add_attachment],
    posts to the upload endpoint. *)
Definition addresses_issue (g : Globals) (name : string) (args : obj)
    (req : Request) : Prop :=
  req_url req = RedmineClient.baseUrl (redmineClient g) +:+ issue_path args
  \/ (name = "add_attachment"
      /\ req_method req = POST
      /\ req_url req = RedmineClient.baseUrl (redmineClient g) +:+ "uploads.json").

(** A run from [st] ends with the first request that fails, and reports
    its error. *)
Definition stops_at_failure (st : State) (run : result CallToolResult * State)
    : Prop :=
  exists new,
    trace run.2 = (trace st ++ new)%list
    /\ forall pre req rep post e,
         new = (pre ++ (req, rep) :: post)%list ->
         settle rep = Throw e ->
         post = [] /\ run.1 = Return (error_result e).

(** The upload entry that [add_attachment] builds from a token. *)
Definition upload_entry (args : obj) (token : value) : value :=
  VObj [("token", token);
        ("filename", obj_get "filename" args);
        ("content_type", obj_get "content_type" args);
        ("description", obj_get "description" args)].

(** In a run of [add_attachment] from [st], a [PUT] comes only after the
    upload was answered with a token, and it attaches that token. *)
Definition attaches_after_upload (g : Globals) (args : obj) (st : State)
    (run : result CallToolResult * State) : Prop :=
  exists new,
    trace run.2 = (trace st ++ new)%list
    /\ forall req rep, (req, rep) ∈ new -> req_method req = PUT ->
         exists bytes first uploadResponse uploaded token,
           Buffer_from_base64 (obj_get "data_base64" args) = Return bytes
           /\ head new =
                Some (request_of (redmineClient g) (UploadBinary (VBytes bytes)), first)
           /\ settle first = Return uploadResponse
           /\ get_prop uploadResponse "upload" = Return uploaded
           /\ get_prop uploaded "token" = Return token
           /\ req = request_of (redmineClient g)
                      (AddAttachment (obj_get "issue_id" args)
                         (VArr [upload_entry args token])).


(** *** The envelope *)

(** What a handler makes of the result of its work: a success envelope
    with the result pretty-printed, or an error envelope with the message
    of the error. *)
Definition respond (r : result value) : CallToolResult :=
  match r with
  | Return v => text_result (JSON_stringify_2 v)
  | Throw e => error_result e
  end.

(** [(await m).k] *)
Definition field (k : string) (m : M value) : M value :=
  let! v := m in settled (get_prop v k).

(** The parameters of a new issue: the arguments, with the default project
    when they name none. *)
Definition project_params (g : Globals) (args : obj) : obj :=
  if is_nullish (obj_get "project_id" args) then
    match DEFAULT_PROJECT_ID g with
    | Some id => prop_set "project_id" (VNum id) args
    | None => args
    end
  else args.

(** Whether a call is a [create_issue] that names no project when none is
    configured. *)
Definition lacks_project (g : Globals) (name : string) (args : obj) : bool :=
  String.eqb name "create_issue"
  && is_nullish (obj_get "project_id" args)
  && match DEFAULT_PROJECT_ID g with Some _ => false | None => true end.


(** *** Failures of fetches that run together *)

(** The operations a tool starts together. *)
Definition concurrent (name : string) : list ClientOp :=
  if String.eqb name "list_trackers_statuses" then [GetTrackers; GetIssueStatuses]
  else if String.eqb name "get_metadata"
       then [GetProjects; GetTrackers; GetIssueStatuses; GetUsers]
       else [].

(** *** Numbers in requests *)

(** The request carries the number [n] as the argument [key] of the tool
    [name]: an issue id in the path, an argument of a search in the query
    string, any other argument in the JSON body. *)
Definition carries (this : RedmineClient.t) (name key : string) (n : number)
    (req : Request) : Prop :=
  if String.eqb key "issue_id" then
    req_url req =
      RedmineClient.baseUrl this +:+ "issues/" +:+ ToString (VNum n) +:+ ".json"
  else if String.eqb name "find_issues" then
    exists encoded pairs,
      encodeURIComponent (ToString (VNum n)) = Return encoded
      /\ (key +:+ "=" +:+ encoded) ∈ pairs
      /\ req_url req =
           RedmineClient.baseUrl this +:+ "issues.json?"
           +:+ String.concat "&" pairs
  else
    exists fields,
      req_body req = of_text (JSON_stringify (VObj [("issue", VObj fields)]))
      /\ obj_get key fields = VNum n.

(** The new requests of a call forward the number: every request for the
    issue carries an issue id (the upload of an attachment apart), the first
    request carries any other argument; and the tools that always send a
    request have sent one. *)
Definition forwarded (this : RedmineClient.t) (name key : string) (n : number)
    (new : list Request) : Prop :=
  if String.eqb key "issue_id" then
    Forall (fun req =>
              req_url req = RedmineClient.baseUrl this +:+ "uploads.json"
              \/ carries this name key n req) new
    /\ (name <> "add_attachment" -> new <> [])
  else
    (forall req rest, new = req :: rest -> carries this name key n req)
    /\ (name = "update_issue" \/ name = "transition_issue"
        \/ (name = "create_issue" /\ key = "project_id") -> new <> []).
End Vocab.

(** The tools that only read. *)
Definition read_only_tools : list string :=
  ["list_projects"; "list_trackers_statuses"; "read_issue"; "find_issues";
   "get_metadata"].

(** The tools that work on one issue. *)
Definition issue_tools : list string :=
  ["update_issue"; "read_issue"; "add_issue_note"; "transition_issue";
   "add_attachment"].

(** The tools that await their requests one after the other. *)
Definition sequential_tools : list string :=
  ["create_issue"; "update_issue"; "list_projects"; "read_issue";
   "add_issue_note"; "transition_issue"; "find_issues"; "add_attachment"].

(** A request that reads: a [GET] without a body. *)
Definition reads (req : Request) : Prop :=
  req_method req = GET /\ req_body req = VUndefined.

(** The tools that change one issue and print it afterwards. *)
Definition write_tools : list string :=
  ["update_issue"; "add_issue_note"; "transition_issue"].

(** ** Running the monad *)

Section Running.
Context `{Runtime}.

Lemma settled_run {A} (r : result A) tk st : settled r tk st = (r, st).
Proof. destruct r; reflexivity. Qed.

Lemma timeout_signal_usable this :
  usable this = true ->
  RedmineClient.timeout_signal this =
    Return (if has_AbortSignal_timeout
            then Some {| delay := RedmineClient.timeout this |} else None).
Proof.
  unfold usable, RedmineClient.timeout_signal, AbortSignal_timeout.
  destruct has_AbortSignal_timeout; [|reflexivity].
  cbn [negb orb]. intros ->. reflexivity.
Qed.

Lemma timeout_signal_refused this :
  usable this = false ->
  RedmineClient.timeout_signal this =
    Throw (RangeError_delay (RedmineClient.timeout this)).
Proof.
  unfold usable, RedmineClient.timeout_signal, AbortSignal_timeout.
  destruct has_AbortSignal_timeout; [|discriminate].
  cbn [negb orb]. intros ->. reflexivity.
Qed.

(** With a timeout that is taken, [request] fetches and reads the reply. *)
Lemma request_run this endpoint method data customHeaders rawBody tk st :
  usable this = true ->
  RedmineClient.request this endpoint method data customHeaders rawBody tk st =
    let req := build this endpoint method data customHeaders rawBody in
    let rep := tk (requests st) req in
    (settle rep, after st req rep).
Proof.
  intros Husable.
  unfold RedmineClient.request, try_catch, bind at 1.
  rewrite settled_run, (timeout_signal_usable this Husable).
  unfold bind, fetch, settle, resolve, build, after, requests; simpl.
  destruct (outcome _) as [r|e]; [|reflexivity].
  destruct (ok r); simpl.
  - destruct (RedmineClient.is_json _); simpl; [destruct (body_json r); reflexivity|].
    unfold bind. rewrite settled_run. destruct (body_text r); reflexivity.
  - unfold bind. rewrite settled_run. destruct (body_text r); reflexivity.
Qed.

(** With a timeout that is refused, [request] throws and fetches nothing. *)
Lemma request_refused this endpoint method data customHeaders rawBody tk st :
  usable this = false ->
  RedmineClient.request this endpoint method data customHeaders rawBody tk st =
    (Throw (RangeError_delay (RedmineClient.timeout this)), st).
Proof.
  intros Husable.
  unfold RedmineClient.request, try_catch, bind at 1.
  rewrite settled_run, (timeout_signal_refused this Husable). reflexivity.
Qed.

(** The client of the tools has the default timeout, which is taken. *)
Lemma usable_server (g : Globals) : usable (redmineClient g) = true.
Proof. unfold usable. destruct has_AbortSignal_timeout; reflexivity. Qed.

Lemma query_pairs_filter (params : obj) :
  query_pairs params =
    map_result
      (fun kv =>
         result_map (fun encoded => kv.1 +:+ "=" +:+ encoded)
           (encodeURIComponent (ToString kv.2)))
      (List.filter (fun kv => negb (is_undefined kv.2)) params).
Proof.
  induction params as [|[k v] params IH]; [reflexivity|].
  destruct v; cbn [query_pairs List.filter is_undefined negb map_result fst snd];
    try exact IH; rewrite IH; destruct (encodeURIComponent _); reflexivity.
Qed.

Lemma queryParams_pairs (params : obj) :
  RedmineClient.queryParams params =
    result_map (String.concat "&") (query_pairs params).
Proof. unfold RedmineClient.queryParams. rewrite query_pairs_filter. reflexivity. Qed.

(** A client operation throws before it fetches, or fetches its request
    and reads the reply. *)
Lemma perform_prepare this op tk st :
  perform this op tk st =
    match prepare this op with
    | Return req =>
        let rep := tk (requests st) req in (settle rep, after st req rep)
    | Throw e => (Throw e, st)
    end.
Proof.
  unfold prepare.
  destruct op; cbn [perform request_of path endpoint];
    unfold RedmineClient.getIssue, RedmineClient.createIssue,
      RedmineClient.updateIssue, RedmineClient.searchIssues,
      RedmineClient.getProjects, RedmineClient.getTrackers,
      RedmineClient.getIssueStatuses, RedmineClient.getUsers,
      RedmineClient.getIssuePriorities, RedmineClient.uploadBinary,
      RedmineClient.addIssueNote, RedmineClient.transitionIssue,
      RedmineClient.addAttachment;
    try (destruct (usable this) eqn:Husable;
         [rewrite request_run by exact Husable
         |rewrite request_refused by exact Husable]; reflexivity).
  unfold bind, path. cbn [endpoint]. rewrite settled_run, queryParams_pairs.
  destruct (query_pairs params) as [pairs|e]; cbn [result_map]; [|reflexivity].
  destruct (usable this) eqn:Husable;
    [rewrite request_run by exact Husable
    |rewrite request_refused by exact Husable]; reflexivity.
Qed.

(** Whether an operation has a path. *)
Lemma prepare_usable this op :
  usable this = true -> is_Return (endpoint op) = true ->
  prepare this op = Return (request_of this op).
Proof.
  unfold prepare. intros -> Hpath.
  destruct (endpoint op); [reflexivity|discriminate Hpath].
Qed.

Lemma perform_run this op tk st :
  usable this = true -> is_Return (endpoint op) = true ->
  perform this op tk st =
    let req := request_of this op in
    let rep := tk (requests st) req in
    (settle rep, after st req rep).
Proof.
  intros Husable Hpath.
  rewrite perform_prepare, (prepare_usable this op Husable Hpath). reflexivity.
Qed.

(** A search makes its query string, then its request. *)
Lemma perform_search this params tk st :
  usable this = true ->
  perform this (SearchIssues params) tk st =
    match RedmineClient.queryParams params with
    | Return _ =>
        let req := request_of this (SearchIssues params) in
        let rep := tk (requests st) req in
        (settle rep, after st req rep)
    | Throw e => (Throw e, st)
    end.
Proof.
  intros Husable. rewrite perform_prepare. unfold prepare. cbn [endpoint].
  rewrite queryParams_pairs.
  destruct (query_pairs params); cbn [result_map]; [rewrite Husable|]; reflexivity.
Qed.

Lemma endsWith_refl s : endsWith s s = true.
Proof.
  destruct s as [|c s]; [reflexivity|].
  cbn [endsWith]. rewrite String.eqb_refl. reflexivity.
Qed.

Lemma endsWith_app s t : endsWith (s +:+ t) t = true.
Proof.
  induction s as [|c s IH]; [apply endsWith_refl|].
  change (String c s +:+ t) with (String c (s +:+ t)).
  simpl. rewrite IH. apply orb_true_r.
Qed.

Lemma baseUrl_new config :
  endsWith (RedmineClient.baseUrl (RedmineClient.new config)) "/" = true.
Proof.
  unfold RedmineClient.new; simpl.
  destruct (endsWith (RedmineConfig.url config) "/") eqn:E; [exact E|].
  apply endsWith_app.
Qed.
End Running.

Import Tools.

Ltac unfold_client :=
  unfold RedmineClient.getIssue, RedmineClient.createIssue,
    RedmineClient.updateIssue, RedmineClient.searchIssues,
    RedmineClient.getProjects, RedmineClient.getTrackers,
    RedmineClient.getIssueStatuses, RedmineClient.getUsers,
    RedmineClient.getIssuePriorities, RedmineClient.uploadBinary,
    RedmineClient.addIssueNote, RedmineClient.transitionIssue,
    RedmineClient.addAttachment.

(** One step of a handler: issue the next request, or case on what the last
    reply, property read or decoding gave. *)
Ltac usable_client := first [apply usable_server | eassumption].

(** The side conditions of [perform_run] and of [Promise_all_perform], for
    operations other than a search. *)
Ltac op_ok := first [usable_client | reflexivity].
Ltac ops_ok := first [usable_client | repeat constructor].

Ltac step :=
  first
    [ rewrite request_run by usable_client; cbv zeta
    | rewrite settled_run
    | match goal with
      | |- context [match settle ?r with _ => _ end] => destruct (settle r) eqn:?
      | |- context [match RedmineClient.queryParams ?p with _ => _ end] =>
          destruct (RedmineClient.queryParams p) eqn:?
      | |- context [match get_prop ?v ?k with _ => _ end] =>
          destruct (get_prop v k) eqn:?
      | |- context [match Buffer_from_base64 ?v with _ => _ end] =>
          destruct (Buffer_from_base64 v) eqn:?
      end ];
  cbn [bind try_catch settled ret throw catch fst snd].

Ltac run_handler := unfold_client; unfold try_catch, bind; repeat step.

Section Shapes.
Context `{Runtime}.
Variable g : Globals.

Lemma registered name shape handler :
  (name, (shape, handler)) ∈ tools g ->
  handler = create_issue g \/ handler = update_issue g
  \/ handler = list_projects g \/ handler = list_trackers_statuses g
  \/ handler = read_issue g \/ handler = add_issue_note g
  \/ handler = transition_issue g \/ handler = find_issues g
  \/ handler = add_attachment g \/ handler = get_metadata g.
Proof.
  unfold tools. rewrite !elem_of_cons, elem_of_nil.
  intros Hin; repeat destruct Hin as [Hin|Hin]; try contradiction;
    inversion Hin; tauto.
Qed.
End Shapes.

(** ** The default project *)

Section Objects.
Lemma obj_get_prop_set (k : string) (v : value) (o : obj) :
  obj_get k (prop_set k v o) = v.
Proof.
  unfold obj_get.
  induction o as [|[k' v'] o IH]; simpl.
  - rewrite String.eqb_refl. reflexivity.
  - destruct (String.eqb k k') eqn:E; simpl.
    + rewrite String.eqb_refl. reflexivity.
    + rewrite E. exact IH.
Qed.

Lemma obj_get_prop_set_ne (k key : string) (v : value) (o : obj) :
  k <> key -> obj_get k (prop_set key v o) = obj_get k o.
Proof.
  intros Hne. unfold obj_get.
  induction o as [|[k' v'] o IH]; cbn [prop_set prop_lookup].
  - apply String.eqb_neq in Hne. rewrite Hne. reflexivity.
  - destruct (String.eqb key k') eqn:E; cbn [prop_lookup].
    + apply String.eqb_eq in E as <-.
      apply String.eqb_neq in Hne. rewrite Hne. reflexivity.
    + destruct (String.eqb k k'); [reflexivity|exact IH].
Qed.

Lemma requests_after st req rep : requests (after st req rep) = (requests st ++ [req])%list.
Proof. unfold requests, after; simpl. rewrite map_app. reflexivity. Qed.
End Objects.

(** C1.  When the arguments of [create_issue] have no project id
    ([undefined] or [null]): with a default project id configured, the
    handler issues one request, the [POST] of [createIssue], whose body is
    the JSON text of [{ issue: params }] where [params] are the arguments with
    [project_id] set to the default; with no default configured, it returns
    the error envelope with the fixed message and issues no request (the
    state, and so the trace, is unchanged). *)
Theorem create_issue_project_default `{Runtime} (g : Globals) (args : obj)
    (tk : Tracker) (st : State) :
  is_nullish (obj_get "project_id" args) = true ->
  match DEFAULT_PROJECT_ID g with
  | Some id =>
      let params := prop_set "project_id" (VNum id) args in
      let req :=
        build (redmineClient g) "issues.json" POST
          (VObj [("issue", VObj params)]) None false in
      requests (create_issue g args tk st).2 = (requests st ++ [req])%list
      /\ req_method req = POST
      /\ req_body req = of_text (JSON_stringify (VObj [("issue", VObj params)]))
      /\ obj_get "project_id" params = VNum id
  | None =>
      create_issue g args tk st = (Return missing_project_id, st)
      /\ isError missing_project_id = true
  end.
Proof.
  intros Hmissing. unfold is_nullish in Hmissing.
  unfold create_issue. rewrite Hmissing.
  destruct (DEFAULT_PROJECT_ID g) as [id|].
  - cbv zeta. split; [|split; [reflexivity|split; [reflexivity|apply obj_get_prop_set]]].
    run_handler; apply requests_after.
  - split; reflexivity.
Qed.

Lemma create_issue_project_default_witness :
  let args := [("subject", VStr "Printer on fire")] in
  let params := (args ++ [("project_id", VNum (Int 3))])%list in
  let req :=
    @build node_runtime (redmineClient Example.with_default) "issues.json" POST
      (VObj [("issue", VObj params)]) None false in
  (requests (@create_issue node_runtime Example.with_default args
               Example.obliging initial).2 = [req]
   /\ req_method req = POST
   /\ req_body req = of_text (@JSON_stringify node_runtime (VObj [("issue", VObj params)]))
   /\ obj_get "project_id" params = VNum (Int 3))
  /\ (@create_issue node_runtime Example.without_default args Example.obliging initial
        = (Return missing_project_id, initial)
      /\ isError missing_project_id = true).
Proof.
  split.
  - apply (@create_issue_project_default node_runtime Example.with_default
             [("subject", VStr "Printer on fire")] Example.obliging initial).
    reflexivity.
  - apply (@create_issue_project_default node_runtime Example.without_default
             [("subject", VStr "Printer on fire")] Example.obliging initial).
    reflexivity.
Defined.

(** ** The query string of a search *)

Section Query.
Context `{Runtime}.

Lemma query_pairs_app (pre post : obj) :
  query_pairs (pre ++ post)%list =
    match query_pairs pre with
    | Return a => result_map (app a) (query_pairs post)
    | Throw e => Throw e
    end.
Proof.
  induction pre as [|[k v] pre IH]; cbn [app query_pairs].
  - destruct (query_pairs post); reflexivity.
  - destruct v; try exact IH;
      (destruct (encodeURIComponent _);
       [rewrite IH; destruct (query_pairs pre); [destruct (query_pairs post)|]|]);
      reflexivity.
Qed.

Lemma query_pairs_defined key v rest :
  v <> VUndefined ->
  query_pairs ((key, v) :: rest) =
    match encodeURIComponent (ToString v) with
    | Return encoded =>
        result_map (cons (key +:+ "=" +:+ encoded)) (query_pairs rest)
    | Throw e => Throw e
    end.
Proof. intros Hv. destruct v; try contradiction; reflexivity. Qed.
End Query.

(** C3.  [searchIssues] first makes the query string: the [key=value] pairs
    of the fields that are not [undefined], joined by [&], each value
    converted to a string and URL-encoded.  A field that is [undefined]
    contributes nothing, wherever it stands; a field with any other value
    contributes exactly its pair, in its place.  With the query string made
    and a timeout the runtime takes, it issues one request, a [GET] to the
    base URL followed by [issues.json?] and the query string.  When a value
    cannot be encoded ([encodeURIComponent] throws), the first such value
    gives the error of the call, and when the timeout is refused the
    [RangeError] does: in both cases no request is issued, so there is no
    query string. *)
Theorem searchIssues_query_string `{Runtime} (this : RedmineClient.t)
    (params : obj) (tk : Tracker) (st : State) :
  let run := RedmineClient.searchIssues this params tk st in
  (forall pairs, query_pairs params = Return pairs ->
     if usable this then
       exists req,
         requests run.2 = (requests st ++ [req])%list
         /\ req_method req = GET
         /\ req_url req =
              RedmineClient.baseUrl this +:+ "issues.json?"
              +:+ String.concat "&" pairs
     else run = (Throw (RangeError_delay (RedmineClient.timeout this)), st))
  /\ (forall e, query_pairs params = Throw e -> run = (Throw e, st))
  /\ (forall pre key post,
         query_pairs (pre ++ (key, VUndefined) :: post)%list =
           query_pairs (pre ++ post)%list)
  /\ (forall pre key v post before encoded after,
         v <> VUndefined ->
         query_pairs pre = Return before ->
         encodeURIComponent (ToString v) = Return encoded ->
         query_pairs post = Return after ->
         query_pairs (pre ++ (key, v) :: post)%list =
           Return (before ++ (key +:+ "=" +:+ encoded) :: after)%list)
  /\ (forall pre key v post before e,
         v <> VUndefined ->
         query_pairs pre = Return before ->
         encodeURIComponent (ToString v) = Throw e ->
         query_pairs (pre ++ (key, v) :: post)%list = Throw e).
Proof.
  cbv zeta.
  change (RedmineClient.searchIssues this params) with (perform this (SearchIssues params)).
  rewrite perform_prepare. unfold prepare. cbn [request_of]. unfold path.
  cbn [endpoint].
  split; [|split; [|split; [|split]]].
  - intros pairs ->. cbn [result_map]. destruct (usable this); [|reflexivity].
    eexists. split; [apply requests_after|]. split; reflexivity.
  - intros e ->. reflexivity.
  - intros pre key post. rewrite !query_pairs_app. reflexivity.
  - intros pre key v post before encoded after Hv Hpre Henc Hpost.
    rewrite query_pairs_app, Hpre, (query_pairs_defined key v post Hv), Henc, Hpost.
    reflexivity.
  - intros pre key v post before e Hv Hpre Henc.
    rewrite query_pairs_app, Hpre, (query_pairs_defined key v post Hv), Henc.
    reflexivity.
Qed.

Lemma searchIssues_query_string_witness :
  let params := [("project_id", VNum (Int 3)); ("query", VStr "a b&c");
                 ("limit", VUndefined)] in
  (exists req,
      requests (@RedmineClient.searchIssues node_runtime
                  (redmineClient Example.with_default) params Example.obliging
                  initial).2 = [req]
      /\ req_url req =
           "https://redmine.example/issues.json?project_id=3&query=a%20b%26c")
  /\ @RedmineClient.searchIssues node_runtime (redmineClient Example.with_default)
       [("query", VStr Example.surrogate)] Example.obliging initial
     = (Throw (mkError "URI malformed"), initial).
Proof.
  intros params.
  pose proof (@searchIssues_query_string node_runtime
                (redmineClient Example.with_default) params Example.obliging
                initial) as (Hsent & _ & _ & Hpair & _).
  pose proof (@searchIssues_query_string node_runtime
                (redmineClient Example.with_default)
                [("query", VStr Example.surrogate)] Example.obliging
                initial) as (_ & Hthrown & _).
  split.
  - assert (Hquery : @query_pairs node_runtime params =
                       Return ["project_id=3"; "query=a%20b%26c"]).
    { exact (Hpair [("project_id", VNum (Int 3))] "query" (VStr "a b&c")
               [("limit", VUndefined)] ["project_id=3"] "a%20b%26c" []
               ltac:(discriminate) eq_refl eq_refl eq_refl). }
    destruct (Hsent _ Hquery) as (req & Hreq & _ & Hurl).
    exists req. split; [exact Hreq|exact Hurl].
  - apply Hthrown. reflexivity.
Defined.

(** ** The base URL *)

(** C9.  The base URL the constructor stores is the configured URL if that
    ends with a slash, and the configured URL with a slash appended
    otherwise; so it ends with a slash.  A client operation issues at most
    one request, and the URL of that request is the stored base URL
    followed by the operation's endpoint path.  It issues the request
    unless it throws before: a search whose values cannot be encoded has no
    path, and a timeout that [AbortSignal.timeout] refuses stops every
    operation.  (The client is a value that no operation changes.) *)
Theorem base_url_invariant `{Runtime} (config : RedmineConfig.t) (op : ClientOp)
    (tk : Tracker) (st : State) :
  let this := RedmineClient.new config in
  RedmineClient.baseUrl this =
    (if endsWith (RedmineConfig.url config) "/" then RedmineConfig.url config
     else RedmineConfig.url config +:+ "/")
  /\ endsWith (RedmineClient.baseUrl this) "/" = true
  /\ map req_url (requests (perform this op tk st).2) =
       (map req_url (requests st)
        ++ match endpoint op with
           | Return path =>
               if usable this then [RedmineClient.baseUrl this +:+ path] else []
           | Throw _ => []
           end)%list.
Proof.
  intros this. split; [reflexivity|]. split; [apply baseUrl_new|].
  rewrite perform_prepare. unfold prepare.
  destruct (endpoint op) as [p|e] eqn:Hpath; [|rewrite app_nil_r; reflexivity].
  destruct (usable this); [|rewrite app_nil_r; reflexivity].
  cbv zeta. cbn [snd]. rewrite requests_after, map_app. f_equal.
  cbn [map]. f_equal.
  destruct op; cbn [request_of build req_url]; unfold path; rewrite Hpath; reflexivity.
Qed.

(** ** The TLS flag *)

(** C10.  The constructor stores the TLS flag ([false] when it is absent),
    and nothing reads it: for every client operation, arguments, tracker and
    starting state, two clients built from configurations that differ only
    in the flag produce the same result and the same trace, hence the same
    requests (method, URL, headers, body and timeout signal). *)
Theorem insecureTls_is_never_read `{Runtime} (config : RedmineConfig.t)
    (flag flag' : option bool) (op : ClientOp) (tk : Tracker) (st : State) :
  RedmineClient.insecureTls (RedmineClient.new (with_insecureTls flag config)) =
    default false flag
  /\ perform (RedmineClient.new (with_insecureTls flag config)) op tk st =
     perform (RedmineClient.new (with_insecureTls flag' config)) op tk st.
Proof.
  split.
  - destruct flag as [[]|]; reflexivity.
  - rewrite !perform_prepare. destruct op; reflexivity.
Qed.

(** ** Attachments *)

Lemma trace_after st req rep : trace (after st req rep) = (trace st ++ [(req, rep)])%list.
Proof. reflexivity. Qed.



(** ** Concurrent fetches *)

Section Fanout.
Context `{Runtime}.

Lemma first_rejection_None {A} (rs : list (result A * nat)) :
  first_rejection rs = None <-> Forall (fun x => is_Return x.1 = true) rs.
Proof.
  induction rs as [|[[a|e] t] rs IH]; simpl.
  - split; auto.
  - rewrite IH. split; [auto|]. inversion 1; auto.
  - split.
    + destruct (first_rejection rs) as [[e' t']|]; [destruct (t' <? t)%nat|]; discriminate.
    + inversion 1; discriminate.
Qed.


(** A single rejection among fulfilled promises is the one reported. *)
Lemma first_rejection_only {A} (pre post : list (result A * nat)) e t :
  Forall (fun x => is_Return x.1 = true) (pre ++ post)%list ->
  first_rejection (pre ++ (Throw e, t) :: post)%list = Some (e, t).
Proof.
  rewrite Forall_app. intros [Hpre Hpost].
  induction Hpre as [|[[a|e0] t0] pre Hx Hpre IH]; simpl.
  - apply first_rejection_None in Hpost. rewrite Hpost. reflexivity.
  - exact IH.
  - discriminate.
Qed.

Lemma start_all_perform this ops t0 tk tr :
  usable this = true ->
  Forall (fun op => is_Return (endpoint op) = true) ops ->
  start_all (map (perform this) ops) t0 tk tr =
    (settlements t0 (fan_out this ops tk tr), (tr ++ fan_out this ops tk tr)%list).
Proof.
  intros Husable Hops. revert tr.
  induction Hops as [|op ops Hop Hops IH]; intros tr; cbn [map start_all fan_out].
  - rewrite app_nil_r. reflexivity.
  - rewrite perform_run by assumption. cbv beta iota zeta. rewrite trace_after, IH.
    unfold settlements, requests. cbn [map snd fst after clock trace].
    rewrite <- app_assoc. reflexivity.
Qed.

Lemma Promise_all_perform this ops tk st :
  usable this = true ->
  Forall (fun op => is_Return (endpoint op) = true) ops ->
  Promise_all (map (perform this) ops) tk st =
    let entries := fan_out this ops tk (trace st) in
    let rs := settlements (clock st) entries in
    match first_rejection rs with
    | Some (e, t) => (Throw e, {| trace := trace st ++ entries; clock := t |})
    | None =>
        (Return (fulfilled rs),
         {| trace := trace st ++ entries;
            clock := foldr Nat.max (clock st) (map snd rs) |})
    end.
Proof.
  intros Husable Hops. unfold Promise_all.
  rewrite start_all_perform by assumption. reflexivity.
Qed.


Lemma url_differs (base a b : string) : a <> b -> base +:+ a <> base +:+ b.
Proof. intros Hab Heq. apply Hab. exact (inj (String.app base) _ _ Heq). Qed.
End Fanout.

Ltac in_list := repeat first [apply list_elem_of_here | apply list_elem_of_further].

(** ** Metadata *)



(** ** Remote failures *)

Section Failures.
Context `{Runtime}.

Lemma settle_not_ok rep response :
  outcome rep = Return response -> ok response = false ->
  exists e, settle rep = Throw e
    /\ forall errorText, body_text response = Return errorText ->
         e = HTTP_error response errorText.
Proof.
  intros Hout Hok. unfold settle, resolve. rewrite Hout, Hok.
  destruct (body_text response) as [s|e]; eexists; (split; [reflexivity|]);
    intros t [= <-]. reflexivity.
Qed.

Lemma in_middle {A} (l pre post : list A) x : l = (pre ++ x :: post)%list -> x ∈ l.
Proof. intros ->. apply elem_of_app. right. left. Qed.

Variable g : Globals.
Variable tk : Tracker.

(** A leaf of a handler that awaits its requests one after the other:
    every reply before the last was fulfilled. *)
Ltac leaf :=
  intros pre req rep post response Htrace Hout Hok _;
  cbn [fst snd] in *; rewrite ?trace_after in Htrace;
  cbn [trace initial app] in Htrace;
  apply in_middle in Htrace;
  destruct (settle_not_ok _ _ Hout Hok) as (e0 & Hs & Htext);
  rewrite ?elem_of_cons, elem_of_nil in Htrace;
  repeat destruct Htrace as [Htrace|Htrace]; try contradiction;
  injection Htrace as -> ->; try congruence;
  eexists; (split; [reflexivity|]); (split; [reflexivity|]);
  intros t Ht _; unfold reports; cbn [content error_result];
  rewrite (Htext t Ht) in Hs;
  match goal with
  | H1 : settle ?r = Throw ?e, H2 : settle ?r = Throw _ |- _ =>
      rewrite H1 in H2; injection H2 as <-
  end; reflexivity.

Ltac sequential := unfold failure_reported; run_handler; unfold catch, ret; leaf.

Lemma read_issue_reports args : failure_reported g (read_issue g args tk initial).
Proof. unfold read_issue. sequential. Qed.

Lemma create_issue_reports args : failure_reported g (create_issue g args tk initial).
Proof.
  unfold create_issue.
  destruct (is_undefined _ || is_null _); [destruct (DEFAULT_PROJECT_ID g)|];
    sequential.
Qed.

Lemma update_issue_reports args : failure_reported g (update_issue g args tk initial).
Proof. unfold update_issue. sequential. Qed.

Lemma list_projects_reports args : failure_reported g (list_projects g args tk initial).
Proof. unfold list_projects. sequential. Qed.

Lemma add_issue_note_reports args :
  failure_reported g (add_issue_note g args tk initial).
Proof. unfold add_issue_note. sequential. Qed.

Lemma transition_issue_reports args :
  failure_reported g (transition_issue g args tk initial).
Proof.
  unfold transition_issue, RedmineClient.transitionIssue.
  destruct (truthy (obj_get "notes" args)); simpl (prop_set _ _ _); sequential.
Qed.

Lemma find_issues_reports args : failure_reported g (find_issues g args tk initial).
Proof. unfold find_issues. sequential. Qed.

Lemma add_attachment_reports args :
  failure_reported g (add_attachment g args tk initial).
Proof. unfold add_attachment. sequential. Qed.

(** Promises started together: a reply that is not [ok] makes
    [Promise.all] reject, and with its error when nothing else failed. *)
Lemma fan_out_rejects (entries pre post : list (Request * Reply)) req rep response t0 :
  entries = (pre ++ (req, rep) :: post)%list ->
  outcome rep = Return response -> ok response = false ->
  exists e t, first_rejection (settlements t0 entries) = Some (e, t)
    /\ forall errorText, body_text response = Return errorText ->
         Forall (fun x => is_Return (settle x.2) = true) (pre ++ post)%list ->
         e = HTTP_error response errorText.
Proof.
  intros -> Hout Hok. destruct (settle_not_ok _ _ Hout Hok) as (e0 & Hs & Htext).
  destruct (first_rejection _) as [[e t]|] eqn:Hfr.
  - exists e, t. split; [reflexivity|]. intros errorText Ht Hothers.
    unfold settlements in Hfr. rewrite map_app in Hfr. cbn [map snd] in Hfr.
    rewrite Hs, first_rejection_only in Hfr.
    + injection Hfr as <- _. auto.
    + rewrite <- map_app. rewrite Forall_map. exact Hothers.
  - exfalso. apply first_rejection_None in Hfr.
    unfold settlements in Hfr. rewrite Forall_map, Forall_app, Forall_cons in Hfr.
    destruct Hfr as (_ & Hx & _). cbn [fst snd] in Hx. rewrite Hs in Hx. discriminate.
Qed.

Lemma list_trackers_statuses_reports args :
  failure_reported g (list_trackers_statuses g args tk initial).
Proof.
  unfold failure_reported, list_trackers_statuses, try_catch, bind.
  change [RedmineClient.getTrackers (redmineClient g);
          RedmineClient.getIssueStatuses (redmineClient g)]
    with (map (perform (redmineClient g)) [GetTrackers; GetIssueStatuses]).
  rewrite Promise_all_perform by ops_ok. cbv zeta. cbn [initial trace clock app].
  set (entries := fan_out _ _ _ _).
  intros pre req rep post response Htrace Hout Hok _. revert Htrace.
  destruct (first_rejection _) as [[e t]|] eqn:Hfr.
  - intros Htrace. unfold catch, ret in *. cbn [fst snd trace] in *.
    destruct (fan_out_rejects _ _ _ _ _ _ 0%nat Htrace Hout Hok) as (e' & t' & Hfr' & He).
    rewrite Hfr in Hfr'. injection Hfr' as <- <-.
    eexists. split; [reflexivity|]. split; [reflexivity|].
    intros errorText Ht Hothers. rewrite (He errorText Ht Hothers). reflexivity.
  - repeat step; unfold catch, ret; intros Htrace; cbn [snd trace] in Htrace;
      destruct (fan_out_rejects _ _ _ _ _ _ 0%nat Htrace Hout Hok) as (e' & t' & Hfr' & _);
      congruence.
Qed.

Lemma get_metadata_reports args : failure_reported g (get_metadata g args tk initial).
Proof.
  unfold failure_reported.
  remember (get_metadata g args tk initial) as run eqn:Hrun.
  unfold get_metadata, try_catch at 1, bind at 1 in Hrun.
  change [RedmineClient.getProjects (redmineClient g);
          RedmineClient.getTrackers (redmineClient g);
          RedmineClient.getIssueStatuses (redmineClient g);
          RedmineClient.getUsers (redmineClient g)]
    with (map (perform (redmineClient g))
            [GetProjects; GetTrackers; GetIssueStatuses; GetUsers]) in Hrun.
  change (RedmineClient.getIssuePriorities (redmineClient g))
    with (perform (redmineClient g) GetIssuePriorities) in Hrun.
  rewrite Promise_all_perform in Hrun by ops_ok. cbv zeta in Hrun.
  cbn [initial trace clock app] in Hrun.
  set (entries := fan_out _ _ _ _) in Hrun.
  intros pre req rep post response Htrace Hout Hok Hurl.
  remember (first_rejection (settlements 0%nat entries)) as fr eqn:Hfr in Hrun.
  symmetry in Hfr. destruct fr as [[e t]|].
  - subst run. unfold catch, ret in *. cbn [fst snd trace] in *.
    destruct (fan_out_rejects _ _ _ _ _ _ 0%nat Htrace Hout Hok) as (e' & t' & Hfr' & He).
    rewrite Hfr in Hfr'. injection Hfr' as <- <-.
    eexists. split; [reflexivity|]. split; [reflexivity|].
    intros errorText Ht Hothers. rewrite (He errorText Ht Hothers). reflexivity.
  - exfalso.
    destruct (settle_not_ok _ _ Hout Hok) as (e0 & Hs & _).
    apply first_rejection_None in Hfr. unfold settlements in Hfr.
    rewrite Forall_map, Forall_forall in Hfr.
    assert (Hin : (req, rep) ∈ (entries ++
              [(request_of (redmineClient g) GetIssuePriorities,
                tk (map fst entries) (request_of (redmineClient g) GetIssuePriorities))])%list).
    { apply in_middle with pre post. rewrite <- Htrace. subst run.
      unfold bind at 1, try_catch at 1. rewrite perform_run by op_ok. cbv zeta.
      destruct (settle _); cbn [ret]; cbv beta iota; unfold bind;
        repeat step; reflexivity. }
    apply elem_of_app in Hin as [Hin|Hin].
    + specialize (Hfr _ Hin). cbn [fst snd] in Hfr. rewrite Hs in Hfr. discriminate.
    + apply list_elem_of_singleton in Hin. injection Hin as -> _.
      apply Hurl. reflexivity.
Qed.
End Failures.

(** ** Start-up *)

Lemma main_client `{Runtime} (argv : list string) (env : gmap string string)
    (globals : Globals) :
  main argv env = Some globals ->
  redmineClient globals =
    RedmineClient.new
      {| RedmineConfig.url := default "" (env !! "REDMINE_URL");
         RedmineConfig.apiKey := default "" (env !! "REDMINE_API_KEY");
         RedmineConfig.timeout := None;
         RedmineConfig.insecureTls := None |}
  /\ RedmineClient.timeout (redmineClient globals) = Int 30000
  /\ RedmineClient.insecureTls (redmineClient globals) = false.
Proof.
  unfold main. intros Hmain.
  repeat match type of Hmain with
         | (if ?b then _ else _) = _ => destruct b; [discriminate Hmain|]
         end.
  injection Hmain as <-. repeat split.
Qed.

(** C8 fails on the code.  With [REDMINE_TIMEOUT_MS=5000] and
    [REDMINE_INSECURE_TLS=true] in the environment, start-up succeeds and
    builds the client from the URL and the API key alone: its timeout is the
    default 30000 and its TLS flag is [false], and the requests of the tools
    carry the 30000 ms signal. *)
Theorem configured_timeout_and_tls_are_ignored :
  Example.env !! "REDMINE_TIMEOUT_MS" = Some "5000"
  /\ Example.env !! "REDMINE_INSECURE_TLS" = Some "true"
  /\ exists globals,
       @main node_runtime Example.argv Example.env = Some globals
       /\ RedmineClient.timeout (redmineClient globals) = Int 30000
       /\ RedmineClient.insecureTls (redmineClient globals) = false
       /\ map req_signal
            (requests (@list_projects node_runtime globals [] Example.obliging initial).2)
          = [Some {| delay := Int 30000 |}].
Proof.
  split; [vm_compute; reflexivity|]. split; [vm_compute; reflexivity|].
  eexists. split; [vm_compute; reflexivity|]. repeat split.
Qed.

(** ** What the tools send *)

(** The client calls of the handlers, as operations. *)
Ltac as_operations :=
  repeat match goal with
    | |- context [RedmineClient.getIssue ?c ?id] =>
        change (RedmineClient.getIssue c id) with (perform c (GetIssue id))
    | |- context [RedmineClient.createIssue ?c ?p] =>
        change (RedmineClient.createIssue c p) with (perform c (CreateIssue p))
    | |- context [RedmineClient.updateIssue ?c ?id ?p] =>
        change (RedmineClient.updateIssue c id p) with (perform c (UpdateIssue id p))
    | |- context [RedmineClient.searchIssues ?c ?p] =>
        change (RedmineClient.searchIssues c p) with (perform c (SearchIssues p))
    | |- context [RedmineClient.getProjects ?c] =>
        change (RedmineClient.getProjects c) with (perform c GetProjects)
    | |- context [RedmineClient.getTrackers ?c] =>
        change (RedmineClient.getTrackers c) with (perform c GetTrackers)
    | |- context [RedmineClient.getIssueStatuses ?c] =>
        change (RedmineClient.getIssueStatuses c) with (perform c GetIssueStatuses)
    | |- context [RedmineClient.getUsers ?c] =>
        change (RedmineClient.getUsers c) with (perform c GetUsers)
    | |- context [RedmineClient.getIssuePriorities ?c] =>
        change (RedmineClient.getIssuePriorities c) with (perform c GetIssuePriorities)
    | |- context [RedmineClient.uploadBinary ?c ?d] =>
        change (RedmineClient.uploadBinary c d) with (perform c (UploadBinary d))
    | |- context [RedmineClient.addIssueNote ?c ?id ?n] =>
        change (RedmineClient.addIssueNote c id n) with (perform c (AddIssueNote id n))
    | |- context [RedmineClient.transitionIssue ?c ?id ?s ?n] =>
        change (RedmineClient.transitionIssue c id s n)
          with (perform c (TransitionIssue id s n))
    | |- context [RedmineClient.addAttachment ?c ?id ?u] =>
        change (RedmineClient.addAttachment c id u) with (perform c (AddAttachment id u))
    end.

(** One step of a handler whose client calls are operations. *)
Ltac advance :=
  as_operations;
  first
    [ rewrite perform_run by op_ok; cbv zeta
    | rewrite perform_search by usable_client
    | rewrite settled_run
    | match goal with
      | |- context [match settle ?r with _ => _ end] => destruct (settle r) eqn:?
      | |- context [match RedmineClient.queryParams ?p with _ => _ end] =>
          destruct (RedmineClient.queryParams p) eqn:?; cbv zeta
      | |- context [match get_prop ?v ?k with _ => _ end] =>
          destruct (get_prop v k) eqn:?
      | |- context [match Buffer_from_base64 ?v with _ => _ end] =>
          destruct (Buffer_from_base64 v) eqn:?
      end ];
  cbn [bind try_catch settled ret throw catch fst snd].

Ltac run_operations := unfold try_catch, bind; repeat advance.

(** A leaf of a handler: the requests since [st] are listed. *)
Ltac sent_leaf :=
  unfold sends, catch, ret; cbn [fst snd];
  rewrite ?requests_after, <- ?app_assoc; cbn [app];
  first [ eexists; split; [reflexivity|]
        | exists []; split; [symmetry; apply app_nil_r|] ];
  (split; [cbn [length]; lia|]);
  repeat (apply Forall_cons_2;
          [first [eexists; reflexivity | split; reflexivity | reflexivity
                 | left; reflexivity | right; repeat split; reflexivity]|]);
  apply Forall_nil_2.

Ltac sent := run_operations; sent_leaf.

Section Sent.
Context `{Runtime}.
Variable g : Globals.
Variable tk : Tracker.

Lemma requests_fan_out this ops tr :
  map fst (fan_out this ops tk tr) = map (request_of this) ops.
Proof.
  revert tr. induction ops as [|op ops IH]; intros tr; cbn [fan_out map fst]; [reflexivity|].
  rewrite IH. reflexivity.
Qed.

Lemma length_fan_out this ops tr : length (fan_out this ops tk tr) = length ops.
Proof. rewrite <- (length_map fst), requests_fan_out, length_map. reflexivity. Qed.

Lemma create_issue_sends args st : sends 5 (client_request g) st (create_issue g args tk st).
Proof.
  unfold create_issue.
  destruct (is_undefined _ || is_null _); [destruct (DEFAULT_PROJECT_ID g)|]; sent.
Qed.

Lemma update_issue_sends args st : sends 5 (client_request g) st (update_issue g args tk st).
Proof. unfold update_issue. sent. Qed.

Lemma list_projects_sends args st : sends 5 (client_request g) st (list_projects g args tk st).
Proof. unfold list_projects. sent. Qed.

Lemma read_issue_sends args st : sends 5 (client_request g) st (read_issue g args tk st).
Proof. unfold read_issue. sent. Qed.

Lemma add_issue_note_sends args st : sends 5 (client_request g) st (add_issue_note g args tk st).
Proof. unfold add_issue_note. sent. Qed.

Lemma transition_issue_sends args st :
  sends 5 (client_request g) st (transition_issue g args tk st).
Proof. unfold transition_issue. sent. Qed.

Lemma find_issues_sends args st : sends 5 (client_request g) st (find_issues g args tk st).
Proof. unfold find_issues. sent. Qed.

Lemma add_attachment_sends args st : sends 5 (client_request g) st (add_attachment g args tk st).
Proof. unfold add_attachment. sent. Qed.


Lemma all_fulfilled t0 (entries : list (Request * Reply)) :
  first_rejection (settlements t0 entries) = None <->
  forallb (fun x => is_Return (settle x.2)) entries = true.
Proof.
  rewrite first_rejection_None. unfold settlements.
  rewrite Forall_map, forallb_forall, Forall_forall.
  split; intros HF x Hx; apply (HF x); [apply list_elem_of_In|apply list_elem_of_In in Hx]; exact Hx.
Qed.

(** [list_trackers_statuses] always sends its two requests. *)
Lemma list_trackers_statuses_requests args st :
  requests (list_trackers_statuses g args tk st).2 =
    (requests st
     ++ map (request_of (redmineClient g)) [GetTrackers; GetIssueStatuses])%list.
Proof.
  unfold list_trackers_statuses, try_catch, bind. as_operations.
  change [perform (redmineClient g) GetTrackers;
          perform (redmineClient g) GetIssueStatuses]
    with (map (perform (redmineClient g)) [GetTrackers; GetIssueStatuses]).
  rewrite Promise_all_perform by ops_ok. cbv zeta.
  rewrite <- (requests_fan_out (redmineClient g) _ (trace st)).
  destruct (first_rejection _) as [[e t]|]; repeat advance;
    unfold catch, ret, requests; cbn [fst snd trace]; apply map_app.
Qed.

(** [get_metadata] always sends its first four requests, and the fifth
    when those four are fulfilled. *)
Lemma get_metadata_requests args st :
  let four := [GetProjects; GetTrackers; GetIssueStatuses; GetUsers] in
  let entries := fan_out (redmineClient g) four tk (trace st) in
  requests (get_metadata g args tk st).2 =
    (requests st
     ++ map (request_of (redmineClient g))
          (if forallb (fun x => is_Return (settle x.2)) entries
           then four ++ [GetIssuePriorities] else four))%list.
Proof.
  intros four entries.
  unfold get_metadata, try_catch at 1, bind at 1. as_operations.
  change [perform (redmineClient g) GetProjects;
          perform (redmineClient g) GetTrackers;
          perform (redmineClient g) GetIssueStatuses;
          perform (redmineClient g) GetUsers]
    with (map (perform (redmineClient g)) four).
  rewrite Promise_all_perform by ops_ok. cbv zeta. fold entries.
  destruct (first_rejection _) as [[e t]|] eqn:Hfr.
  - assert (Hnot : forallb (fun x => is_Return (settle x.2)) entries = false).
    { apply not_true_is_false. intros Hall. apply all_fulfilled with (t0 := clock st) in Hall.
      congruence. }
    rewrite Hnot. unfold catch, ret, requests; cbn [fst snd trace].
    rewrite map_app. unfold entries. rewrite requests_fan_out. reflexivity.
  - apply all_fulfilled in Hfr. rewrite Hfr.
    unfold bind at 1, try_catch at 1. rewrite perform_run by op_ok. cbv zeta.
    assert (Hreq : forall c,
               requests (after {| trace := trace st ++ entries; clock := c |}
                           (request_of (redmineClient g) GetIssuePriorities)
                           (tk (requests {| trace := trace st ++ entries; clock := c |})
                               (request_of (redmineClient g) GetIssuePriorities)))
               = (requests st ++ map (request_of (redmineClient g))
                                     (four ++ [GetIssuePriorities]))%list).
    { intros c. rewrite requests_after. unfold requests at 1. cbn [trace].
      rewrite map_app. unfold entries. rewrite requests_fan_out, map_app, app_assoc.
      reflexivity. }
    destruct (settle _); cbn [ret]; cbv beta iota; unfold bind;
      repeat advance; unfold catch, ret; cbn [snd]; apply Hreq.
Qed.

Lemma list_trackers_statuses_sends args st :
  sends 5 (client_request g) st (list_trackers_statuses g args tk st).
Proof.
  exists (map (request_of (redmineClient g)) [GetTrackers; GetIssueStatuses]).
  split; [apply list_trackers_statuses_requests|].
  split; [cbn; lia|]. cbn [map].
  repeat (apply Forall_cons_2; [eexists; reflexivity|]); apply Forall_nil_2.
Qed.

Lemma get_metadata_sends args st : sends 5 (client_request g) st (get_metadata g args tk st).
Proof.
  eexists. split; [apply get_metadata_requests|].
  destruct (forallb _ _); (split; [cbn; lia|]); cbn [map app];
    repeat (apply Forall_cons_2; [eexists; reflexivity|]); apply Forall_nil_2.
Qed.
End Sent.

Lemma every_tool_sends `{Runtime} (g : Globals) name shape handler
    (args : obj) (tk : Tracker) (st : State) :
  (name, (shape, handler)) ∈ tools g ->
  sends 5 (client_request g) st (handler args tk st).
Proof.
  intros Hin. apply registered in Hin.
  repeat destruct Hin as [Hin|Hin]; subst handler;
    [apply create_issue_sends | apply update_issue_sends
    | apply list_projects_sends | apply list_trackers_statuses_sends
    | apply read_issue_sends | apply add_issue_note_sends
    | apply transition_issue_sends | apply find_issues_sends
    | apply add_attachment_sends | apply get_metadata_sends].
Qed.

(** X1.  Whatever the arguments, the tracker and the state, a registered
    tool sends at most five requests, and each of them is the request of one
    of the thirteen operations of the server's client: a handler reaches the
    network only through the client. *)
Theorem tools_send_client_requests `{Runtime} (g : Globals) name shape handler
    (args : obj) (tk : Tracker) (st : State) :
  (name, (shape, handler)) ∈ tools g ->
  exists new,
    requests (handler args tk st).2 = (requests st ++ new)%list
    /\ (length new <= 5)%nat
    /\ Forall (fun req => exists op, req = request_of (redmineClient g) op) new.
Proof. apply every_tool_sends. Qed.

Lemma tools_send_client_requests_witness :
  exists new,
    requests (@get_metadata node_runtime Example.with_default [] Example.obliging
                initial).2 = ([] ++ new)%list
    /\ (length new <= 5)%nat
    /\ Forall (fun req =>
                 exists op,
                   req = @request_of node_runtime (redmineClient Example.with_default) op)
         new.
Proof.
  apply (@tools_send_client_requests node_runtime Example.with_default
           "get_metadata" [] (@get_metadata node_runtime Example.with_default)).
  unfold tools. in_list.
Defined.

Lemma registered_named `{Runtime} (g : Globals) name shape handler :
  (name, (shape, handler)) ∈ tools g ->
  (name = "create_issue" /\ handler = create_issue g)
  \/ (name = "update_issue" /\ handler = update_issue g)
  \/ (name = "list_projects" /\ handler = list_projects g)
  \/ (name = "list_trackers_statuses" /\ handler = list_trackers_statuses g)
  \/ (name = "read_issue" /\ handler = read_issue g)
  \/ (name = "add_issue_note" /\ handler = add_issue_note g)
  \/ (name = "transition_issue" /\ handler = transition_issue g)
  \/ (name = "find_issues" /\ handler = find_issues g)
  \/ (name = "add_attachment" /\ handler = add_attachment g)
  \/ (name = "get_metadata" /\ handler = get_metadata g).
Proof.
  unfold tools. rewrite !elem_of_cons, elem_of_nil.
  intros Hin; repeat destruct Hin as [Hin|Hin]; try contradiction;
    inversion Hin; tauto.
Qed.

(** Which of the names a registered name is. *)
Ltac which_tool Hin :=
  apply registered_named in Hin;
  repeat destruct Hin as [Hin|Hin]; destruct Hin as [-> ->].

Ltac not_listed H :=
  exfalso; unfold read_only_tools, issue_tools, sequential_tools, write_tools in H;
  rewrite ?elem_of_cons, elem_of_nil in H;
  repeat destruct H as [H|H]; solve [discriminate H | exact H].

Lemma not_the_upload `{Runtime} (op : ClientOp) :
  String.eqb (path op) "uploads.json" =
    match op with UploadBinary _ => true | _ => false end.
Proof.
  destruct op; try reflexivity.
  unfold path. cbn [endpoint]. destruct (query_pairs params); reflexivity.
Qed.

(** X2.  Every request a registered tool sends goes to the client's base
    URL followed by a path, and carries exactly two headers: the API key of
    the server's configuration under [X-Redmine-API-Key], and a
    [Content-Type], which is [application/octet-stream] for the upload (the
    path [uploads.json]) and [application/json] for every other request. *)
Theorem requests_carry_the_api_key `{Runtime} (g : Globals) name shape handler
    (args : obj) (tk : Tracker) (st : State) :
  (name, (shape, handler)) ∈ tools g ->
  exists new,
    requests (handler args tk st).2 = (requests st ++ new)%list
    /\ Forall
         (fun req =>
            exists path,
              req_url req = RedmineClient.baseUrl (redmineClient g) +:+ path
              /\ req_headers req =
                   [("X-Redmine-API-Key", REDMINE_API_KEY g);
                    ("Content-Type",
                     if String.eqb path "uploads.json"
                     then "application/octet-stream"
                     else "application/json")])
         new.
Proof.
  intros Hin.
  destruct (every_tool_sends g name shape handler args tk st Hin)
    as (new & Hnew & _ & Hops).
  exists new. split; [exact Hnew|].
  eapply Forall_impl; [exact Hops|]. cbn beta.
  intros req [op ->]. exists (path op). rewrite not_the_upload.
  destruct op; split; reflexivity.
Qed.

Lemma requests_carry_the_api_key_witness :
  exists new,
    requests (@add_attachment node_runtime Example.with_default
                [("issue_id", VNum (Int 7)); ("filename", VStr "log.txt");
                 ("data_base64", VStr "aGVsbG8=")] Example.obliging initial).2
      = ([] ++ new)%list
    /\ Forall
         (fun req =>
            exists path,
              req_url req = "https://redmine.example/" +:+ path
              /\ req_headers req =
                   [("X-Redmine-API-Key", "secret");
                    ("Content-Type",
                     if String.eqb path "uploads.json"
                     then "application/octet-stream"
                     else "application/json")])
         new.
Proof.
  apply (@requests_carry_the_api_key node_runtime Example.with_default
           "add_attachment" add_attachment_schema
           (@add_attachment node_runtime Example.with_default)).
  unfold tools. in_list.
Defined.

Section ReadOnly.
Context `{Runtime}.
Variable g : Globals.
Variable tk : Tracker.

Lemma reads_all ops :
  Forall (fun op => match op with
                    | GetIssue _ | SearchIssues _ | GetProjects | GetTrackers
                    | GetIssueStatuses | GetUsers | GetIssuePriorities => True
                    | _ => False
                    end) ops ->
  Forall reads (map (request_of (redmineClient g)) ops).
Proof.
  intros Hops. rewrite Forall_map. eapply Forall_impl; [exact Hops|].
  intros op Hop. destruct op; try contradiction; split; reflexivity.
Qed.

Lemma list_projects_reads args st : sends 5 reads st (list_projects g args tk st).
Proof. unfold list_projects. sent. Qed.

Lemma read_issue_reads args st : sends 5 reads st (read_issue g args tk st).
Proof. unfold read_issue. sent. Qed.

Lemma find_issues_reads args st : sends 5 reads st (find_issues g args tk st).
Proof. unfold find_issues. sent. Qed.
End ReadOnly.

(** X3.  The tools [list_projects], [list_trackers_statuses],
    [read_issue], [find_issues] and [get_metadata] only read: every request
    they send is a [GET] without a body. *)
Theorem read_only_tools_only_get `{Runtime} (g : Globals) name shape handler
    (args : obj) (tk : Tracker) (st : State) :
  (name, (shape, handler)) ∈ tools g ->
  name ∈ read_only_tools ->
  exists new,
    requests (handler args tk st).2 = (requests st ++ new)%list
    /\ Forall (fun req => req_method req = GET /\ req_body req = VUndefined) new.
Proof.
  intros Hin Hro. which_tool Hin; try not_listed Hro.
  - destruct (list_projects_reads g tk args st) as (new & Hnew & _ & Hall).
    exists new. split; [exact Hnew|exact Hall].
  - eexists. split; [apply list_trackers_statuses_requests|].
    apply reads_all. repeat constructor.
  - destruct (read_issue_reads g tk args st) as (new & Hnew & _ & Hall).
    exists new. split; [exact Hnew|exact Hall].
  - destruct (find_issues_reads g tk args st) as (new & Hnew & _ & Hall).
    exists new. split; [exact Hnew|exact Hall].
  - eexists. split; [apply get_metadata_requests|].
    apply reads_all. destruct (forallb _ _); repeat constructor.
Qed.

Lemma read_only_tools_only_get_witness :
  exists new,
    requests (@get_metadata node_runtime Example.with_default [] Example.obliging
                initial).2 = ([] ++ new)%list
    /\ Forall (fun req => req_method req = GET /\ req_body req = VUndefined) new.
Proof.
  apply (@read_only_tools_only_get node_runtime Example.with_default
           "get_metadata" []
           (@get_metadata node_runtime Example.with_default)).
  - unfold tools. in_list.
  - unfold read_only_tools. in_list.
Defined.

Section OneIssue.
Context `{Runtime}.
Variable g : Globals.
Variable tk : Tracker.

Lemma update_issue_addresses args st :
  sends 5 (addresses_issue g "update_issue" args) st (update_issue g args tk st).
Proof. unfold update_issue. sent. Qed.

Lemma read_issue_addresses args st :
  sends 5 (addresses_issue g "read_issue" args) st (read_issue g args tk st).
Proof. unfold read_issue. sent. Qed.

Lemma add_issue_note_addresses args st :
  sends 5 (addresses_issue g "add_issue_note" args) st (add_issue_note g args tk st).
Proof. unfold add_issue_note. sent. Qed.

Lemma transition_issue_addresses args st :
  sends 5 (addresses_issue g "transition_issue" args) st
    (transition_issue g args tk st).
Proof. unfold transition_issue. sent. Qed.

Lemma add_attachment_addresses args st :
  sends 5 (addresses_issue g "add_attachment" args) st (add_attachment g args tk st).
Proof. unfold add_attachment. sent. Qed.
End OneIssue.

(** X4.  The tools [update_issue], [read_issue], [add_issue_note],
    [transition_issue] and [add_attachment] work on the issue of the call:
    every request they send goes to [issues/<issue_id>.json], except the
    upload of [add_attachment], a [POST] to [uploads.json]. *)
Theorem issue_tools_address_their_issue `{Runtime} (g : Globals) name shape handler
    (args : obj) (tk : Tracker) (st : State) :
  (name, (shape, handler)) ∈ tools g ->
  name ∈ issue_tools ->
  exists new,
    requests (handler args tk st).2 = (requests st ++ new)%list
    /\ Forall
         (fun req =>
            req_url req =
              RedmineClient.baseUrl (redmineClient g) +:+ "issues/"
              +:+ ToString (obj_get "issue_id" args) +:+ ".json"
            \/ (name = "add_attachment"
                /\ req_method req = POST
                /\ req_url req =
                     RedmineClient.baseUrl (redmineClient g) +:+ "uploads.json"))
         new.
Proof.
  intros Hin Hlisted. which_tool Hin; try not_listed Hlisted.
  - destruct (update_issue_addresses g tk args st) as (new & Hnew & _ & Hall).
    exists new. split; [exact Hnew|exact Hall].
  - destruct (read_issue_addresses g tk args st) as (new & Hnew & _ & Hall).
    exists new. split; [exact Hnew|exact Hall].
  - destruct (add_issue_note_addresses g tk args st) as (new & Hnew & _ & Hall).
    exists new. split; [exact Hnew|exact Hall].
  - destruct (transition_issue_addresses g tk args st) as (new & Hnew & _ & Hall).
    exists new. split; [exact Hnew|exact Hall].
  - destruct (add_attachment_addresses g tk args st) as (new & Hnew & _ & Hall).
    exists new. split; [exact Hnew|exact Hall].
Qed.

Lemma issue_tools_address_their_issue_witness :
  exists new,
    requests (@add_attachment node_runtime Example.with_default
                [("issue_id", VNum (Int 7)); ("filename", VStr "log.txt");
                 ("data_base64", VStr "aGVsbG8=")] Example.obliging initial).2
      = ([] ++ new)%list
    /\ Forall
         (fun req =>
            req_url req = "https://redmine.example/issues/7.json"
            \/ ("add_attachment" = "add_attachment"
                /\ req_method req = POST
                /\ req_url req = "https://redmine.example/uploads.json"))
         new.
Proof.
  apply (@issue_tools_address_their_issue node_runtime Example.with_default
           "add_attachment" add_attachment_schema
           (@add_attachment node_runtime Example.with_default)).
  - unfold tools. in_list.
  - unfold issue_tools. in_list.
Defined.

(** ** Failures end a call *)

(** A leaf of a handler that awaits its requests in turn. *)
Ltac stopped_leaf :=
  unfold stops_at_failure, catch, ret; cbn [fst snd];
  rewrite ?trace_after, <- ?app_assoc; cbn [app];
  first [ eexists; split; [reflexivity|]
        | exists []; split; [symmetry; apply app_nil_r|] ];
  intros pre0 req0 rep0 post0 err0 Hnew Hs;
  destruct pre0 as [|x1 [|x2 [|x3 pre0]]]; cbn [app] in Hnew;
  simplify_eq; try congruence;
  try match goal with
      | E : [] = (?l ++ _ :: _)%list |- _ => destruct l; discriminate E
      end;
  (split; [reflexivity|congruence]).

Ltac stopped := run_operations; stopped_leaf.

Section Stops.
Context `{Runtime}.
Variable g : Globals.
Variable tk : Tracker.

Lemma create_issue_stops args st : stops_at_failure st (create_issue g args tk st).
Proof.
  unfold create_issue.
  destruct (is_undefined _ || is_null _); [destruct (DEFAULT_PROJECT_ID g)|]; stopped.
Qed.

Lemma update_issue_stops args st : stops_at_failure st (update_issue g args tk st).
Proof. unfold update_issue. stopped. Qed.

Lemma list_projects_stops args st : stops_at_failure st (list_projects g args tk st).
Proof. unfold list_projects. stopped. Qed.

Lemma read_issue_stops args st : stops_at_failure st (read_issue g args tk st).
Proof. unfold read_issue. stopped. Qed.

Lemma add_issue_note_stops args st : stops_at_failure st (add_issue_note g args tk st).
Proof. unfold add_issue_note. stopped. Qed.

Lemma transition_issue_stops args st :
  stops_at_failure st (transition_issue g args tk st).
Proof. unfold transition_issue. stopped. Qed.

Lemma find_issues_stops args st : stops_at_failure st (find_issues g args tk st).
Proof. unfold find_issues. stopped. Qed.

Lemma add_attachment_stops args st : stops_at_failure st (add_attachment g args tk st).
Proof. unfold add_attachment. stopped. Qed.
End Stops.

(** X5.  In the tools that await their requests one after the other (all
    but the two aggregates), a request that fails, by a transport error, a
    response that is not ok or a body that cannot be read, is the last
    request of the call, and the call returns the error envelope of that
    failure. *)
Theorem first_failure_ends_the_call `{Runtime} (g : Globals) name shape handler
    (args : obj) (tk : Tracker) (st : State) :
  (name, (shape, handler)) ∈ tools g ->
  name ∈ sequential_tools ->
  exists new,
    trace (handler args tk st).2 = (trace st ++ new)%list
    /\ forall pre req rep post e,
         new = (pre ++ (req, rep) :: post)%list ->
         settle rep = Throw e ->
         post = [] /\ (handler args tk st).1 = Return (error_result e).
Proof.
  intros Hin Hlisted. which_tool Hin; try not_listed Hlisted;
    [apply create_issue_stops | apply update_issue_stops
    | apply list_projects_stops | apply read_issue_stops
    | apply add_issue_note_stops | apply transition_issue_stops
    | apply find_issues_stops | apply add_attachment_stops].
Qed.

Lemma first_failure_ends_the_call_witness :
  (@add_issue_note node_runtime Example.with_default
     [("issue_id", VNum (Int 7)); ("notes", VStr "seen")] Example.missing initial).1
  = Return (error_result (mkError "HTTP 404: Not Found"))
  /\ length (trace (@add_issue_note node_runtime Example.with_default
               [("issue_id", VNum (Int 7)); ("notes", VStr "seen")]
               Example.missing initial).2) = 1%nat.
Proof.
  destruct (@first_failure_ends_the_call node_runtime Example.with_default
              "add_issue_note" add_issue_note_schema
              (@add_issue_note node_runtime Example.with_default)
              [("issue_id", VNum (Int 7)); ("notes", VStr "seen")]
              Example.missing initial
              ltac:(unfold tools; in_list)
              ltac:(unfold sequential_tools; in_list))
    as (new & Htrace & Hstop).
  split; [|reflexivity].
  set (tr := trace _) in Htrace. vm_compute in tr. subst tr.
  cbn [app initial trace] in Htrace. subst new.
  exact (proj2 (Hstop [] _ _ [] _ eq_refl eq_refl)).
Defined.

(** X6.  The aggregates do not stop at a failure.
    [list_trackers_statuses] always sends both its requests, and
    [get_metadata] always sends its four concurrent requests, in the order
    projects, trackers, statuses, users; it sends the priorities request
    after them exactly when all four succeeded. *)
Theorem aggregates_send_all_their_requests `{Runtime} (g : Globals) (args : obj)
    (tk : Tracker) (st : State) :
  let this := redmineClient g in
  let four := [GetProjects; GetTrackers; GetIssueStatuses; GetUsers] in
  requests (list_trackers_statuses g args tk st).2 =
    (requests st ++ map (request_of this) [GetTrackers; GetIssueStatuses])%list
  /\ requests (get_metadata g args tk st).2 =
       (requests st
        ++ map (request_of this)
             (if forallb (fun x => is_Return (settle x.2))
                   (fan_out this four tk (trace st))
              then four ++ [GetIssuePriorities] else four))%list.
Proof.
  split; [apply list_trackers_statuses_requests|apply get_metadata_requests].
Qed.

(** ** The fields of an issue *)

Section Fields.

Lemma keys_prop_set (k : string) (v : value) (o : obj) :
  map fst (prop_set k v o) =
    if obj_has k o then map fst o else (map fst o ++ [k])%list.
Proof.
  unfold obj_has.
  induction o as [|[k' v'] o IH]; cbn [prop_set prop_lookup map fst app]; [reflexivity|].
  destruct (String.eqb k k') eqn:E.
  - apply String.eqb_eq in E as ->. rewrite bool_decide_eq_true_2 by eauto. reflexivity.
  - cbn [map fst]. rewrite IH.
    destruct (bool_decide (is_Some (prop_lookup k o))); reflexivity.
Qed.

Lemma obj_get_prop_remove (k : string) (o : obj) :
  obj_get k (prop_remove k o) = VUndefined.
Proof.
  unfold obj_get.
  induction o as [|[k' v'] o IH]; cbn [prop_remove]; [reflexivity|].
  destruct (String.eqb k k') eqn:E; [exact IH|].
  cbn [prop_lookup]. rewrite E. exact IH.
Qed.

Lemma obj_get_prop_remove_ne (k key : string) (o : obj) :
  k <> key -> obj_get k (prop_remove key o) = obj_get k o.
Proof.
  intros Hne. unfold obj_get.
  induction o as [|[k' v'] o IH]; cbn [prop_remove]; [reflexivity|].
  destruct (String.eqb key k') eqn:E.
  - apply String.eqb_eq in E as <-. cbn [prop_lookup].
    apply String.eqb_neq in Hne. rewrite Hne. exact IH.
  - cbn [prop_lookup]. destruct (String.eqb k k'); [reflexivity|exact IH].
Qed.

Lemma keys_prop_remove (k : string) (o : obj) :
  map fst (prop_remove k o) =
    List.filter (fun k' => negb (String.eqb k k')) (map fst o).
Proof.
  induction o as [|[k' v'] o IH]; cbn [prop_remove map fst List.filter]; [reflexivity|].
  destruct (String.eqb k k'); cbn [negb map fst]; rewrite IH; reflexivity.
Qed.
End Fields.

(** X7.  [create_issue] with a [project_id] that is neither [undefined]
    nor [null] sends one [POST] with the arguments as given, and the
    configured default project plays no part: two servers with the same
    client give the same run. *)
Theorem explicit_project_id_is_kept `{Runtime} (g g' : Globals) (args : obj)
    (tk : Tracker) (st : State) :
  is_nullish (obj_get "project_id" args) = false ->
  redmineClient g' = redmineClient g ->
  requests (create_issue g args tk st).2 =
    (requests st ++ [request_of (redmineClient g) (CreateIssue args)])%list
  /\ create_issue g' args tk st = create_issue g args tk st.
Proof.
  intros Hgiven Hclient. unfold is_nullish in Hgiven. split.
  - unfold create_issue. rewrite Hgiven.
    run_operations; unfold catch, ret; cbn [snd]; apply requests_after.
  - unfold create_issue. rewrite Hgiven, Hclient. reflexivity.
Qed.

Lemma explicit_project_id_is_kept_witness :
  let args := [("project_id", VNum (Int 9)); ("subject", VStr "Printer on fire")] in
  requests (@create_issue node_runtime Example.with_default args Example.obliging
              initial).2 =
    [@request_of node_runtime (redmineClient Example.with_default) (CreateIssue args)]
  /\ @create_issue node_runtime Example.without_default args Example.obliging initial
     = @create_issue node_runtime Example.with_default args Example.obliging initial.
Proof.
  apply (@explicit_project_id_is_kept node_runtime Example.with_default
           Example.without_default); reflexivity.
Defined.

(** X8.  When [create_issue] falls back to the default project, the
    parameters it posts agree with the arguments on every field other than
    [project_id], and keep the order of the fields: [project_id] stays in
    place when the arguments had it (as [undefined] or [null]), and comes
    last otherwise. *)
Theorem default_project_keeps_the_other_fields `{Runtime} (g : Globals)
    (args : obj) (id : number) (tk : Tracker) (st : State) :
  is_nullish (obj_get "project_id" args) = true ->
  DEFAULT_PROJECT_ID g = Some id ->
  exists params,
    requests (create_issue g args tk st).2 =
      (requests st ++ [request_of (redmineClient g) (CreateIssue params)])%list
    /\ (forall key, key <> "project_id" -> obj_get key params = obj_get key args)
    /\ map fst params =
         if obj_has "project_id" args then map fst args
         else (map fst args ++ ["project_id"])%list.
Proof.
  intros Hmissing Hdefault. unfold is_nullish in Hmissing.
  exists (prop_set "project_id" (VNum id) args). split; [|split].
  - unfold create_issue. rewrite Hmissing, Hdefault.
    run_operations; unfold catch, ret; cbn [snd]; apply requests_after.
  - intros key Hkey. apply obj_get_prop_set_ne. exact Hkey.
  - apply keys_prop_set.
Qed.

Lemma default_project_keeps_the_other_fields_witness :
  let args := [("project_id", VNull); ("subject", VStr "Printer on fire")] in
  exists params,
    requests (@create_issue node_runtime Example.with_default args Example.obliging
                initial).2 =
      ([] ++ [@request_of node_runtime (redmineClient Example.with_default)
                (CreateIssue params)])%list
    /\ (forall key, key <> "project_id" -> obj_get key params = obj_get key args)
    /\ map fst params = ["project_id"; "subject"].
Proof.
  apply (@default_project_keeps_the_other_fields node_runtime Example.with_default
           [("project_id", VNull); ("subject", VStr "Printer on fire")] (Int 3));
    reflexivity.
Defined.

(** X9.  [update_issue] sends a [PUT] for the issue whose parameters are
    the arguments without [issue_id], every other field unchanged and in the
    same order, and fetches the issue again exactly when the [PUT]
    succeeded. *)
Theorem update_issue_sends_the_other_fields `{Runtime} (g : Globals) (args : obj)
    (tk : Tracker) (st : State) :
  let this := redmineClient g in
  let issue_id := obj_get "issue_id" args in
  let params := prop_remove "issue_id" args in
  let put := request_of this (UpdateIssue issue_id params) in
  requests (update_issue g args tk st).2 =
    (requests st
     ++ put :: (if is_Return (settle (tk (requests st) put))
                then [request_of this (GetIssue issue_id)] else []))%list
  /\ obj_get "issue_id" params = VUndefined
  /\ (forall key, key <> "issue_id" -> obj_get key params = obj_get key args)
  /\ map fst params =
       List.filter (fun key => negb (String.eqb "issue_id" key)) (map fst args).
Proof.
  cbv zeta. split; [|split; [|split]].
  - unfold update_issue. run_operations; unfold catch, ret; cbn [snd is_Return];
      rewrite ?requests_after, <- ?app_assoc; reflexivity.
  - apply obj_get_prop_remove.
  - intros key Hkey. apply obj_get_prop_remove_ne. exact Hkey.
  - apply keys_prop_remove.
Qed.

Lemma update_issue_sends_the_other_fields_witness :
  obj_get "subject"
    (prop_remove "issue_id"
       [("issue_id", VNum (Int 7)); ("subject", VStr "Printer on fire")])
  = VStr "Printer on fire".
Proof.
  apply (proj1 (proj2 (proj2
           (@update_issue_sends_the_other_fields node_runtime Example.with_default
              [("issue_id", VNum (Int 7)); ("subject", VStr "Printer on fire")]
              Example.obliging initial)))
           "subject").
  discriminate.
Defined.

(** ** Notes, uploads and replies *)

Section Lookups.
Context {V : Type}.

Lemma prop_lookup_prop_set (k : string) (v : V) (o : list (string * V)) :
  prop_lookup k (prop_set k v o) = Some v.
Proof.
  induction o as [|[k' v'] o IH]; cbn [prop_set prop_lookup].
  - rewrite String.eqb_refl. reflexivity.
  - destruct (String.eqb k k') eqn:E; cbn [prop_lookup].
    + rewrite String.eqb_refl. reflexivity.
    + rewrite E. exact IH.
Qed.

Lemma prop_lookup_prop_set_ne (k key : string) (v : V) (o : list (string * V)) :
  k <> key -> prop_lookup k (prop_set key v o) = prop_lookup k o.
Proof.
  intros Hne. induction o as [|[k' v'] o IH]; cbn [prop_set prop_lookup].
  - apply String.eqb_neq in Hne. rewrite Hne. reflexivity.
  - destruct (String.eqb key k') eqn:E; cbn [prop_lookup].
    + apply String.eqb_eq in E as <-.
      apply String.eqb_neq in Hne. rewrite Hne. reflexivity.
    + destruct (String.eqb k k'); [reflexivity|exact IH].
Qed.
End Lookups.

Section Substrings.

Lemma prefix_app (t b : string) : String.prefix t (t +:+ b) = true.
Proof.
  induction t as [|c t IH]; [destruct b; reflexivity|].
  change (String c t +:+ b) with (String c (t +:+ b)).
  cbn [String.prefix]. destruct (ascii_dec c c); [exact IH|contradiction].
Qed.

Lemma prefix_split (t s : string) :
  String.prefix t s = true -> exists b, s = t +:+ b.
Proof.
  revert s. induction t as [|c t IH]; intros s Hp.
  - exists s. reflexivity.
  - destruct s as [|c' s]; [discriminate Hp|].
    cbn [String.prefix] in Hp. destruct (ascii_dec c c') as [->|]; [|discriminate Hp].
    destruct (IH s Hp) as [b ->]. exists b. reflexivity.
Qed.

(** [includes] is the substring test. *)
Lemma includes_substring (s t : string) :
  includes s t = true <-> exists a b, s = a +:+ t +:+ b.
Proof.
  split.
  - induction s as [|c s IH]; cbn [includes]; rewrite orb_true_iff.
    + intros [Hp|[=]]. apply prefix_split in Hp as [b ->]. exists "", b. reflexivity.
    + intros [Hp|Hin].
      * apply prefix_split in Hp as [b ->]. exists "", b. reflexivity.
      * destruct (IH Hin) as (a & b & ->). exists (String c a), b. reflexivity.
  - intros (a & b & ->). induction a as [|c a IH].
    + change ("" +:+ t +:+ b) with (t +:+ b).
      destruct (t +:+ b) eqn:E; cbn [includes]; rewrite <- ?E, prefix_app; reflexivity.
    + change (String c a +:+ t +:+ b) with (String c (a +:+ t +:+ b)).
      cbn [includes]. rewrite IH. apply orb_true_r.
Qed.
End Substrings.

(** X10.  [transition_issue] sends the notes only when they are truthy.
    With notes that are absent or the empty string the body of the [PUT] is
    [{ issue: { status_id } }]; otherwise it is
    [{ issue: { status_id, notes } }].  A call with empty notes runs as the
    same call without notes. *)
Theorem empty_notes_are_not_sent `{Runtime} (g : Globals) (args : obj)
    (tk : Tracker) (st : State) :
  let this := redmineClient g in
  let issue_id := obj_get "issue_id" args in
  let status_id := obj_get "status_id" args in
  (obj_get "notes" args = VStr "" ->
   transition_issue g args tk st = transition_issue g (prop_remove "notes" args) tk st)
  /\ (truthy (obj_get "notes" args) = false ->
      exists new,
        requests (transition_issue g args tk st).2 =
          (requests st
           ++ build this (issue_path args) PUT
                (VObj [("issue", VObj [("status_id", status_id)])]) None false
              :: new)%list)
  /\ (truthy (obj_get "notes" args) = true ->
      exists new,
        requests (transition_issue g args tk st).2 =
          (requests st
           ++ build this (issue_path args) PUT
                (VObj [("issue", VObj [("status_id", status_id);
                                       ("notes", obj_get "notes" args)])])
                None false
              :: new)%list).
Proof.
  cbv zeta. split; [|split].
  - intros Hnotes. unfold transition_issue.
    rewrite obj_get_prop_remove, !obj_get_prop_remove_ne by discriminate.
    rewrite Hnotes. reflexivity.
  - intros Hnotes. unfold transition_issue, RedmineClient.transitionIssue, issue_path.
    rewrite Hnotes.
    run_handler; unfold catch, ret; cbn [snd]; rewrite ?requests_after, <- ?app_assoc;
      eexists; reflexivity.
  - intros Hnotes. unfold transition_issue, RedmineClient.transitionIssue, issue_path.
    rewrite Hnotes.
    run_handler; unfold catch, ret; cbn [snd]; rewrite ?requests_after, <- ?app_assoc;
      eexists; reflexivity.
Qed.

Lemma empty_notes_are_not_sent_witness :
  exists new,
    requests (@transition_issue node_runtime Example.with_default
                [("issue_id", VNum (Int 7)); ("status_id", VNum (Int 2));
                 ("notes", VStr "")] Example.obliging initial).2
    = ([] ++ @build node_runtime (redmineClient Example.with_default)
               "issues/7.json" PUT
               (VObj [("issue", VObj [("status_id", VNum (Int 2))])]) None false
          :: new)%list.
Proof.
  apply (proj1 (proj2
           (@empty_notes_are_not_sent node_runtime Example.with_default
              [("issue_id", VNum (Int 7)); ("status_id", VNum (Int 2));
               ("notes", VStr "")] Example.obliging initial))).
  reflexivity.
Defined.

(** X11.  With a timeout that the runtime takes, [uploadBinary] sends one
    [POST] whose body is the data itself, not its JSON text, and whose
    [Content-Type] is [application/octet-stream]; every other header is the
    client's.  With a timeout that [AbortSignal.timeout] refuses it throws
    the [RangeError] and sends nothing. *)
Theorem upload_replaces_the_content_type `{Runtime} (this : RedmineClient.t)
    (data : value) (tk : Tracker) (st : State) :
  (usable this = true ->
   exists req,
     requests (RedmineClient.uploadBinary this data tk st).2 = (requests st ++ [req])%list
     /\ req_method req = POST
     /\ req_body req = data
     /\ prop_lookup "Content-Type" (req_headers req) = Some "application/octet-stream"
     /\ forall name, name <> "Content-Type" ->
          prop_lookup name (req_headers req) =
            prop_lookup name (RedmineClient.headers this))
  /\ (usable this = false ->
      RedmineClient.uploadBinary this data tk st =
        (Throw (RangeError_delay (RedmineClient.timeout this)), st)).
Proof.
  change (RedmineClient.uploadBinary this data) with (perform this (UploadBinary data)).
  rewrite perform_prepare. unfold prepare. cbn [endpoint]. split; intros ->.
  - exists (request_of this (UploadBinary data)).
    split; [apply requests_after|]. split; [reflexivity|]. split; [reflexivity|]. split.
    + apply prop_lookup_prop_set.
    + intros name Hname. apply prop_lookup_prop_set_ne. exact Hname.
  - reflexivity.
Qed.

Lemma upload_replaces_the_content_type_witness :
  (exists req,
      requests (@RedmineClient.uploadBinary node_runtime
                  (RedmineClient.new Example.config) (VBytes []) Example.obliging
                  initial).2 = [req]
      /\ prop_lookup "X-Redmine-API-Key" (req_headers req) = Some "secret")
  /\ requests (@RedmineClient.uploadBinary node_runtime
                 (RedmineClient.new Example.impatient) (VBytes []) Example.obliging
                 initial).2 = [].
Proof.
  split.
  - destruct (proj1 (@upload_replaces_the_content_type node_runtime
                       (RedmineClient.new Example.config) (VBytes [])
                       Example.obliging initial) eq_refl)
      as (req & Hreq & _ & _ & _ & Hother).
    exists req. split; [exact Hreq|].
    rewrite (Hother "X-Redmine-API-Key"); [reflexivity|discriminate].
  - rewrite (proj2 (@upload_replaces_the_content_type node_runtime
                      (RedmineClient.new Example.impatient) (VBytes [])
                      Example.obliging initial) eq_refl).
    reflexivity.
Defined.

(** X12.  When an operation comes to its request and the response is ok,
    the response is read by its content type: as JSON when the content type
    contains [application/json], and as text otherwise or when the header
    is missing.  What reading the body gives, a value or an error, is the
    result of the operation. *)
Theorem replies_are_read_by_content_type `{Runtime} (this : RedmineClient.t)
    (op : ClientOp) (tk : Tracker) (st : State) (req : Request)
    (response : Response) :
  prepare this op = Return req ->
  outcome (tk (requests st) req) = Return response ->
  ok response = true ->
  let text_read :=
    match body_text response with
    | Return s => Return (VStr s)
    | Throw e => Throw e
    end in
  match content_type response with
  | Some contentType =>
      ((exists a b, contentType = a +:+ "application/json" +:+ b) ->
       (perform this op tk st).1 = body_json response)
      /\ (~ (exists a b, contentType = a +:+ "application/json" +:+ b) ->
          (perform this op tk st).1 = text_read)
  | None => (perform this op tk st).1 = text_read
  end.
Proof.
  intros Hprepare Hout Hok. rewrite perform_prepare, Hprepare. cbv zeta. cbn [fst].
  unfold settle, resolve. rewrite Hout, Hok. unfold RedmineClient.is_json.
  destruct (content_type response) as [ct|]; [|reflexivity].
  split; intros Hsub.
  - apply includes_substring in Hsub.
    destruct ct as [|c ct]; [discriminate Hsub|].
    rewrite Hsub. reflexivity.
  - destruct (includes ct "application/json") eqn:E.
    + exfalso. apply Hsub, includes_substring. exact E.
    + rewrite andb_false_r. reflexivity.
Qed.

Lemma replies_are_read_by_content_type_witness :
  (@perform node_runtime (RedmineClient.new Example.config) GetProjects
     Example.obliging initial).1 = Return Example.everything.
Proof.
  apply (proj1 (@replies_are_read_by_content_type node_runtime
                  (RedmineClient.new Example.config) GetProjects Example.obliging
                  initial _ _ eq_refl eq_refl eq_refl)).
  exists "", "; charset=utf-8". reflexivity.
Defined.

(** ** Start-up, continued *)

Section Arguments.

Lemma indexOf_first (pre rest : list string) (flag : string) :
  flag ∉ pre -> indexOf (pre ++ flag :: rest)%list flag = Some (length pre).
Proof.
  induction pre as [|a pre IH]; intros Hnot; cbn [app indexOf length].
  - rewrite String.eqb_refl. reflexivity.
  - apply not_elem_of_cons in Hnot as [Hne Hnot].
    assert (E : String.eqb a flag = false) by (apply String.eqb_neq; congruence).
    rewrite E, (IH Hnot). reflexivity.
Qed.

Lemma indexOf_absent (args : list string) (flag : string) :
  flag ∉ args -> indexOf args flag = None.
Proof.
  induction args as [|a args IH]; intros Hnot; cbn [indexOf]; [reflexivity|].
  apply not_elem_of_cons in Hnot as [Hne Hnot].
  assert (E : String.eqb a flag = false) by (apply String.eqb_neq; congruence).
  rewrite E, (IH Hnot). reflexivity.
Qed.
End Arguments.

(** X13.  [getArgValue] gives the argument that follows the first
    occurrence of the flag, nothing when the flag is the last argument, and
    nothing when the flag does not occur. *)
Theorem getArgValue_reads_the_next_argument (pre rest : list string) (flag : string) :
  flag ∉ pre ->
  getArgValue (pre ++ flag :: rest)%list flag = head rest
  /\ getArgValue pre flag = None.
Proof.
  intros Hnot. unfold getArgValue. split.
  - rewrite (indexOf_first pre rest flag Hnot).
    rewrite lookup_app_r by lia.
    replace (length pre + 1 - length pre)%nat with 1%nat by lia.
    destruct rest; reflexivity.
  - rewrite (indexOf_absent pre flag Hnot). reflexivity.
Qed.

Lemma getArgValue_reads_the_next_argument_witness :
  getArgValue (["--verbose"] ++ "--api-key" :: ["K"; "--api-key"; "L"])%list "--api-key"
    = Some "K"
  /\ getArgValue ["--verbose"] "--api-key" = None.
Proof.
  apply (getArgValue_reads_the_next_argument ["--verbose"] ["K"; "--api-key"; "L"]).
  rewrite elem_of_cons, elem_of_nil. intros [E|[]]. discriminate E.
Defined.

Section Startup.
Context `{Runtime}.

Lemma absent_false (a : option string) :
  absent a = false <-> exists s, a = Some s /\ s <> "".
Proof.
  unfold absent. destruct a as [s|]; cbn.
  - rewrite negb_false_iff, negb_true_iff, String.eqb_neq.
    split; [eauto|]. intros (s' & [= <-] & Hs). exact Hs.
  - split; [discriminate|]. intros (s & [=] & _).
Qed.

Lemma or_else_present (a b : option string) s :
  a = Some s -> s <> "" -> or_else a b = a.
Proof.
  intros -> Hs. cbn. apply String.eqb_neq in Hs. rewrite Hs. reflexivity.
Qed.

Lemma or_else_fallback (a b : option string) :
  a = None \/ a = Some "" -> or_else a b = b.
Proof. intros [->| ->]; reflexivity. Qed.
End Startup.

(** X14.  When start-up does not exit, the server key is a non-empty
    string, taken from [MCP_API_KEY] or, if that is unset or empty, from the
    argument after [--api-key]; [REDMINE_URL] and [REDMINE_API_KEY] are set
    and not empty; the client's base URL is [REDMINE_URL] with a trailing
    slash ensured, and its headers carry [REDMINE_API_KEY]. *)
Theorem startup_needs_a_complete_configuration `{Runtime} (argv : list string)
    (env : gmap string string) (globals : Globals) :
  main argv env = Some globals ->
  (exists key, key <> ""
     /\ (env !! "MCP_API_KEY" = Some key
         \/ (env !! "MCP_API_KEY" = None \/ env !! "MCP_API_KEY" = Some "")
            /\ getArgValue (drop 2 argv) "--api-key" = Some key))
  /\ (exists url, url <> "" /\ env !! "REDMINE_URL" = Some url
        /\ RedmineClient.baseUrl (redmineClient globals) =
             (if endsWith url "/" then url else url +:+ "/"))
  /\ (exists apiKey, apiKey <> "" /\ env !! "REDMINE_API_KEY" = Some apiKey
        /\ RedmineClient.headers (redmineClient globals) =
             [("X-Redmine-API-Key", apiKey); ("Content-Type", "application/json")]).
Proof.
  unfold main. intros Hmain.
  destruct (absent (or_else _ _)) eqn:Hkey; [discriminate Hmain|].
  destruct (_ && isNaN _); [discriminate Hmain|].
  destruct (absent (env !! "REDMINE_URL")) eqn:Hurl; [discriminate Hmain|].
  destruct (absent (env !! "REDMINE_API_KEY")) eqn:Hapi; [discriminate Hmain|].
  cbn [orb] in Hmain. injection Hmain as <-.
  apply absent_false in Hkey as (key & Hkey & Hne).
  apply absent_false in Hurl as (url & -> & Hu).
  apply absent_false in Hapi as (apiKey & -> & Ha).
  split; [|split].
  - exists key. split; [exact Hne|].
    destruct (env !! "MCP_API_KEY") as [k|] eqn:E.
    + destruct (String.eqb k "") eqn:Ek.
      * apply String.eqb_eq in Ek as ->. right. split; [auto|exact Hkey].
      * left. cbn in Hkey. rewrite Ek in Hkey. exact Hkey.
    + right. split; [auto|exact Hkey].
  - exists url. repeat split; assumption.
  - exists apiKey. repeat split; assumption.
Qed.

Lemma startup_needs_a_complete_configuration_witness :
  exists url, url <> "" /\ Example.env !! "REDMINE_URL" = Some url.
Proof.
  destruct (@startup_needs_a_complete_configuration node_runtime Example.argv
              Example.env Example.without_default)
    as (_ & (url & Hurl & Henv & _) & _).
  - vm_compute. reflexivity.
  - exists url. split; assumption.
Defined.

(** X15.  With a non-empty [MCP_API_KEY] in the environment the command
    line is not consulted: start-up gives the same result on any two command
    lines. *)
Theorem environment_key_comes_before_the_flag `{Runtime} (argv argv' : list string)
    (env : gmap string string) (key : string) :
  env !! "MCP_API_KEY" = Some key -> key <> "" ->
  main argv env = main argv' env.
Proof.
  intros Hkey Hne. unfold main.
  rewrite !(or_else_present _ _ key Hkey Hne). reflexivity.
Qed.

Lemma environment_key_comes_before_the_flag_witness :
  @main node_runtime ["node"; "index.js"; "--api-key"; ""] Example.env
  = @main node_runtime Example.argv Example.env.
Proof.
  apply (@environment_key_comes_before_the_flag node_runtime _ _ Example.env "mcp").
  - vm_compute. reflexivity.
  - discriminate.
Defined.

(** X16.  [REDMINE_DEFAULT_PROJECT_ID]: an empty value is the same as no
    value; a non-empty value that is not a number makes start-up exit; and
    when start-up succeeds the default project is the number read from the
    value, or none when the value is unset or empty. *)
Theorem default_project_id_is_read_once `{Runtime} (argv : list string)
    (env : gmap string string) :
  let name := "REDMINE_DEFAULT_PROJECT_ID" in
  main argv (<[name := ""]> env) = main argv (delete name env)
  /\ (forall raw, env !! name = Some raw -> raw <> "" -> Number_ raw = None ->
        main argv env = None)
  /\ (forall globals, main argv env = Some globals ->
        DEFAULT_PROJECT_ID globals =
          match env !! name with
          | Some raw => if String.eqb raw "" then None else Number_ raw
          | None => None
          end).
Proof.
  cbv zeta. split; [|split].
  - unfold main.
    rewrite lookup_insert_eq, lookup_delete_eq.
    rewrite !lookup_insert_ne, !lookup_delete_ne by discriminate.
    reflexivity.
  - intros raw Hraw Hne Hnan. unfold main. rewrite Hraw.
    apply String.eqb_neq in Hne. rewrite Hne. cbn [negb default from_option id].
    rewrite Hnan. cbn [isNaN andb].
    destruct (absent _); reflexivity.
  - intros globals. unfold main.
    destruct (absent (or_else _ _)); [discriminate|].
    destruct (_ && isNaN _); [discriminate|].
    destruct (_ || _); [discriminate|].
    intros [= <-]. cbn [DEFAULT_PROJECT_ID].
    destruct (env !! "REDMINE_DEFAULT_PROJECT_ID") as [raw|]; [|reflexivity].
    destruct (String.eqb raw ""); reflexivity.
Qed.

Lemma default_project_id_is_read_once_witness :
  exists globals,
    @main node_runtime Example.argv
      (<["REDMINE_DEFAULT_PROJECT_ID" := "3"]> Example.env) = Some globals
    /\ DEFAULT_PROJECT_ID globals = Some (Int 3).
Proof.
  assert (Hmain : @main node_runtime Example.argv
                    (<["REDMINE_DEFAULT_PROJECT_ID" := "3"]> Example.env)
                  = Some Example.with_default) by (vm_compute; reflexivity).
  exists Example.with_default. split; [exact Hmain|].
  rewrite (proj2 (proj2
             (@default_project_id_is_read_once node_runtime Example.argv
                (<["REDMINE_DEFAULT_PROJECT_ID" := "3"]> Example.env)))
             Example.with_default Hmain).
  reflexivity.
Defined.

(** ** Replies that are not what the handlers expect *)



(** ** Trackers and statuses together *)



(** ** Attachments, continued *)

(** X19.  In every run of [add_attachment], successful or not, a [PUT] is
    sent only after the upload, the first request, was answered with a token,
    and it attaches exactly that token with the filename, content type and
    description of the call. *)
Theorem attachment_follows_a_successful_upload `{Runtime} (g : Globals)
    (args : obj) (tk : Tracker) (st : State) :
  exists new,
    trace (add_attachment g args tk st).2 = (trace st ++ new)%list
    /\ forall req rep, (req, rep) ∈ new -> req_method req = PUT ->
         exists bytes first uploadResponse uploaded token,
           Buffer_from_base64 (obj_get "data_base64" args) = Return bytes
           /\ head new =
                Some (request_of (redmineClient g) (UploadBinary (VBytes bytes)),
                      first)
           /\ settle first = Return uploadResponse
           /\ get_prop uploadResponse "upload" = Return uploaded
           /\ get_prop uploaded "token" = Return token
           /\ req = request_of (redmineClient g)
                      (AddAttachment (obj_get "issue_id" args)
                         (VArr [VObj [("token", token);
                                      ("filename", obj_get "filename" args);
                                      ("content_type", obj_get "content_type" args);
                                      ("description", obj_get "description" args)]])).
Proof.
  change (attaches_after_upload g args st (add_attachment g args tk st)).
  unfold add_attachment. run_operations;
    unfold attaches_after_upload, upload_entry, catch, ret; cbn [fst snd];
    rewrite ?trace_after, <- ?app_assoc; cbn [app];
    (first [ eexists; split; [reflexivity|]
           | exists []; split; [symmetry; apply app_nil_r|] ]);
    intros req0 rep0 Hin Hput;
    rewrite ?elem_of_cons, elem_of_nil in Hin;
    repeat destruct Hin as [Hin|Hin]; try contradiction;
    injection Hin as -> ->; try discriminate Hput;
    do 5 eexists; repeat split; first [reflexivity | eassumption].
Qed.

Lemma attachment_follows_a_successful_upload_witness :
  let args := [("issue_id", VNum (Int 7)); ("filename", VStr "log.txt");
               ("data_base64", VStr "aGVsbG8=")] in
  let run := @add_attachment node_runtime Example.with_default args
               Example.obliging initial in
  exists bytes first rep,
    trace run.2 !! 0%nat =
      Some (@request_of node_runtime (redmineClient Example.with_default)
              (UploadBinary (VBytes bytes)), first)
    /\ trace run.2 !! 1%nat =
         Some (@request_of node_runtime (redmineClient Example.with_default)
                 (AddAttachment (VNum (Int 7))
                    (VArr [VObj [("token", VStr "7.abc");
                                 ("filename", VStr "log.txt");
                                 ("content_type", VUndefined);
                                 ("description", VUndefined)]])), rep).
Proof.
  intros args run.
  destruct (@attachment_follows_a_successful_upload node_runtime
              Example.with_default args Example.obliging initial)
    as (new & Htrace & Hput).
  fold run in Htrace.
  set (tr := trace run.2) in *. vm_compute in tr. subst tr.
  cbn [app initial trace] in Htrace. subst new.
  destruct (Hput _ _ ltac:(apply list_elem_of_further, list_elem_of_here) eq_refl)
    as (bytes & first & uploadResponse & uploaded & token
        & Hbytes & Hhead & Hfirst & Hupload & Htoken & Hreq).
  injection Hbytes as <-. injection Hhead as <-.
  injection Hfirst as <-. injection Hupload as <-. injection Htoken as <-.
  do 3 eexists. split; reflexivity.
Defined.

(** ** Searching without filters *)

Lemma query_pairs_undefined `{Runtime} (params : obj) :
  Forall (fun field => field.2 = VUndefined) params ->
  query_pairs params = Return [].
Proof.
  induction 1 as [|[k v] params Hv _ IH]; [reflexivity|].
  cbn [snd] in Hv. subst v. exact IH.
Qed.

Lemma app_empty_r (s : string) : s +:+ "" = s.
Proof.
  induction s as [|c s IH]; [reflexivity|].
  change (String c s +:+ "") with (String c (s +:+ "")). rewrite IH. reflexivity.
Qed.

(** X20.  A search all of whose filters are [undefined], in particular one
    without filters, sends [GET issues.json?], with an empty query string. *)
Theorem search_without_filters `{Runtime} (g : Globals) (params : obj)
    (tk : Tracker) (st : State) :
  Forall (fun field => field.2 = VUndefined) params ->
  requests (find_issues g params tk st).2 =
    (requests st
     ++ [build (redmineClient g) "issues.json?" GET VUndefined None false])%list.
Proof.
  intros Hnone. unfold find_issues, try_catch, bind. as_operations.
  rewrite perform_search by usable_client.
  rewrite queryParams_pairs, (query_pairs_undefined params Hnone).
  cbn [result_map]. cbv zeta.
  destruct (settle _); unfold catch, ret; cbn [snd];
    rewrite requests_after; cbn [request_of]; unfold path; cbn [endpoint];
    rewrite (query_pairs_undefined params Hnone); reflexivity.
Qed.

Lemma search_without_filters_witness :
  map req_url
    (requests (@find_issues node_runtime Example.with_default
                 [("query", VUndefined); ("limit", VUndefined)] Example.obliging
                 initial).2)
  = ["https://redmine.example/issues.json?"].
Proof.
  rewrite (@search_without_filters node_runtime Example.with_default
             [("query", VUndefined); ("limit", VUndefined)] Example.obliging initial).
  - reflexivity.
  - repeat constructor.
Defined.

(** ** Metadata, continued *)



(** ** Writes print the issue read back *)

Section ReadBack.
Context `{Runtime}.
Variable g : Globals.
Variable tk : Tracker.




End ReadBack.



(** ** The response envelope *)

Section Envelope.
Context `{Runtime}.
Variable g : Globals.

(** A handler and the result of its tool, run side by side. *)
Ltac responds :=
  unfold field; as_operations; unfold try_catch, bind; repeat advance;
  reflexivity.


Lemma create_issue_responds args tk st :
  create_issue g args tk st =
    if lacks_project g "create_issue" args then (Return missing_project_id, st)
    else
      let run :=
        field "issue"
          (perform (redmineClient g) (CreateIssue (project_params g args))) tk st in
      (Return (respond run.1), run.2).
Proof.
  unfold create_issue, lacks_project, project_params, is_nullish.
  cbn [String.eqb Ascii.eqb Bool.eqb andb].
  destruct (is_undefined _ || is_null _); [destruct (DEFAULT_PROJECT_ID g)|];
    cbv zeta; cbn [andb]; responds.
Qed.

Lemma update_issue_responds args tk st :
  update_issue g args tk st =
    let run :=
      (do! perform (redmineClient g)
             (UpdateIssue (obj_get "issue_id" args) (prop_remove "issue_id" args)) in
       field "issue" (perform (redmineClient g) (GetIssue (obj_get "issue_id" args))))
        tk st in
    (Return (respond run.1), run.2).
Proof. unfold update_issue. cbv zeta. responds. Qed.


Lemma read_issue_responds args tk st :
  read_issue g args tk st =
    let run :=
      field "issue" (perform (redmineClient g) (GetIssue (obj_get "issue_id" args)))
        tk st in
    (Return (respond run.1), run.2).
Proof. unfold read_issue. cbv zeta. responds. Qed.

Lemma add_issue_note_responds args tk st :
  add_issue_note g args tk st =
    let run :=
      (do! perform (redmineClient g)
             (AddIssueNote (obj_get "issue_id" args) (obj_get "notes" args)) in
       field "issue" (perform (redmineClient g) (GetIssue (obj_get "issue_id" args))))
        tk st in
    (Return (respond run.1), run.2).
Proof. unfold add_issue_note. cbv zeta. responds. Qed.

Lemma transition_issue_responds args tk st :
  transition_issue g args tk st =
    let run :=
      (do! perform (redmineClient g)
             (TransitionIssue (obj_get "issue_id" args) (obj_get "status_id" args)
                (obj_get "notes" args)) in
       field "issue" (perform (redmineClient g) (GetIssue (obj_get "issue_id" args))))
        tk st in
    (Return (respond run.1), run.2).
Proof. unfold transition_issue. cbv zeta. responds. Qed.

Lemma find_issues_responds args tk st :
  find_issues g args tk st =
    let run := perform (redmineClient g) (SearchIssues args) tk st in
    (Return (respond run.1), run.2).
Proof. unfold find_issues. cbv zeta. responds. Qed.



End Envelope.



(** ** Remote failures, as reported *)

Section Earliest.
Context `{Runtime}.

Lemma first_rejection_earliest {A} (rs : list (result A * nat)) e t :
  first_rejection rs = Some (e, t) ->
  (Throw e, t) ∈ rs
  /\ forall x, x ∈ rs -> is_Return x.1 = false -> (t <= x.2)%nat.
Proof.
  revert e t. induction rs as [|[[a|e0] t0] rs IH]; intros e t; cbn [first_rejection].
  - discriminate.
  - intros Hfr. destruct (IH e t Hfr) as [Hin Hmin]. split; [right; exact Hin|].
    intros x Hx Hfail. apply elem_of_cons in Hx as [->|Hx]; [discriminate Hfail|].
    apply Hmin; assumption.
  - destruct (first_rejection rs) as [[e' t']|] eqn:Hrs.
    + destruct (IH e' t' eq_refl) as [Hin Hmin].
      destruct (Nat.ltb_spec t' t0); intros [= <- <-].
      * split; [right; exact Hin|].
        intros x Hx Hfail. apply elem_of_cons in Hx as [->|Hx]; [cbn; lia|].
        apply Hmin; assumption.
      * split; [left|].
        intros x Hx Hfail. apply elem_of_cons in Hx as [->|Hx]; [cbn; lia|].
        specialize (Hmin x Hx Hfail). lia.
    + intros [= <- <-]. split; [left|].
      intros x Hx Hfail. apply elem_of_cons in Hx as [->|Hx]; [cbn; lia|].
      apply first_rejection_None in Hrs. rewrite Forall_forall in Hrs.
      rewrite (Hrs x Hx) in Hfail. discriminate Hfail.
Qed.

(** Among fetches started together of which one fails, the failure that
    [Promise.all] rejects with is one that settles first. *)
Lemma earliest_failure (entries : list (Request * Reply)) (t0 : nat) :
  (exists x, x ∈ entries /\ is_Return (settle x.2) = false) ->
  exists req rep e,
    first_rejection (settlements t0 entries) = Some (e, (t0 + latency rep)%nat)
    /\ (req, rep) ∈ entries /\ settle rep = Throw e
    /\ forall req' rep', (req', rep') ∈ entries ->
         is_Return (settle rep') = false -> (latency rep <= latency rep')%nat.
Proof.
  intros (x & Hx & Hfail).
  destruct (first_rejection (settlements t0 entries)) as [[e t]|] eqn:Hfr.
  - destruct (first_rejection_earliest _ e t Hfr) as [Hin Hmin].
    unfold settlements in Hin. apply list_elem_of_fmap in Hin as ([req rep] & [= Hs ->] & Hin).
    exists req, rep, e. cbn [snd] in *. split; [reflexivity|].
    split; [exact Hin|]. split; [symmetry; exact Hs|].
    intros req' rep' Hin' Hfail'.
    specialize (Hmin (settle rep', (t0 + latency rep')%nat)).
    cbn [fst snd] in Hmin.
    assert (Hle : (t0 + latency rep <= t0 + latency rep')%nat).
    { apply Hmin; [|exact Hfail'].
      unfold settlements. apply list_elem_of_fmap. exists (req', rep'). split; [reflexivity|exact Hin']. }
    lia.
  - exfalso. apply first_rejection_None in Hfr. unfold settlements in Hfr.
    rewrite Forall_map, Forall_forall in Hfr. specialize (Hfr x Hx).
    cbn [fst] in Hfr. rewrite Hfr in Hfail. discriminate Hfail.
Qed.

(** A tracker that differs only on the priorities fetch answers fetches
    of other addresses alike. *)
Lemma fan_out_agree this ops tk tk' tr :
  (forall seen req, req_url req <> priorities_url this -> tk' seen req = tk seen req) ->
  Forall (fun op => req_url (request_of this op) <> priorities_url this) ops ->
  fan_out this ops tk' tr = fan_out this ops tk tr.
Proof.
  intros Hsame Hops. revert tr.
  induction Hops as [|op ops Hop Hops IH]; intros tr; cbn [fan_out]; [reflexivity|].
  cbv zeta. rewrite (Hsame _ _ Hop), IH. reflexivity.
Qed.

Variable g : Globals.

Lemma aggregate_rejects ops tk st (k : list value -> M CallToolResult) e t :
  Forall (fun op => is_Return (endpoint op) = true) ops ->
  first_rejection (settlements (clock st) (fan_out (redmineClient g) ops tk (trace st)))
    = Some (e, t) ->
  (try_catch (bind (Promise_all (map (perform (redmineClient g)) ops)) k) catch tk st).1
    = Return (error_result e).
Proof.
  intros Hops Hfr. unfold try_catch, bind.
  rewrite Promise_all_perform by first [usable_client | exact Hops].
  cbv zeta. rewrite Hfr. reflexivity.
Qed.

Lemma list_trackers_statuses_earliest args tk e t :
  let entries := fan_out (redmineClient g) [GetTrackers; GetIssueStatuses] tk [] in
  first_rejection (settlements 0 entries) = Some (e, t) ->
  (list_trackers_statuses g args tk initial).1 = Return (error_result e).
Proof.
  intros entries Hfr. unfold list_trackers_statuses. as_operations.
  change [perform (redmineClient g) GetTrackers;
          perform (redmineClient g) GetIssueStatuses]
    with (map (perform (redmineClient g)) [GetTrackers; GetIssueStatuses]).
  apply (aggregate_rejects _ tk initial _ e t);
    [repeat constructor|exact Hfr].
Qed.

Lemma get_metadata_earliest args tk e t :
  let entries :=
    fan_out (redmineClient g) [GetProjects; GetTrackers; GetIssueStatuses; GetUsers]
      tk [] in
  first_rejection (settlements 0 entries) = Some (e, t) ->
  (get_metadata g args tk initial).1 = Return (error_result e).
Proof.
  intros entries Hfr. unfold get_metadata. as_operations.
  change [perform (redmineClient g) GetProjects;
          perform (redmineClient g) GetTrackers;
          perform (redmineClient g) GetIssueStatuses;
          perform (redmineClient g) GetUsers]
    with (map (perform (redmineClient g))
            [GetProjects; GetTrackers; GetIssueStatuses; GetUsers]).
  apply (aggregate_rejects _ tk initial _ e t);
    [repeat constructor|exact Hfr].
Qed.

(** A failed priorities fetch is as good as an empty list of priorities. *)
Lemma priorities_absorbed args tk tk' :
  let this := redmineClient g in
  let seen :=
    map (request_of this) [GetProjects; GetTrackers; GetIssueStatuses; GetUsers] in
  (forall seen req, req_url req <> priorities_url this -> tk' seen req = tk seen req) ->
  is_Return (settle (tk seen (request_of this GetIssuePriorities))) = false ->
  settle (tk' seen (request_of this GetIssuePriorities)) =
    Return (VObj [("issue_priorities", VArr [])]) ->
  (get_metadata g args tk initial).1 = (get_metadata g args tk' initial).1.
Proof.
  intros this seen Hsame Hfails Hempty. subst this.
  unfold get_metadata, try_catch at 1 3, bind at 1 8. as_operations.
  change [perform (redmineClient g) GetProjects;
          perform (redmineClient g) GetTrackers;
          perform (redmineClient g) GetIssueStatuses;
          perform (redmineClient g) GetUsers]
    with (map (perform (redmineClient g))
            [GetProjects; GetTrackers; GetIssueStatuses; GetUsers]).
  rewrite !Promise_all_perform by ops_ok. cbv zeta.
  rewrite (fan_out_agree (redmineClient g) _ tk tk' _ Hsame)
    by (repeat constructor; apply url_differs; discriminate).
  cbn [initial trace clock app].
  set (entries := fan_out (redmineClient g) _ tk []).
  destruct (first_rejection _) as [[e t]|]; [reflexivity|].
  unfold bind at 1 7, try_catch at 1 2.
  rewrite !perform_run by op_ok. cbv zeta.
  pose proof (requests_fan_out tk (redmineClient g)
                [GetProjects; GetTrackers; GetIssueStatuses; GetUsers] []) as Hseen.
  fold entries seen in Hseen.
  unfold requests. cbn [trace]. rewrite !Hseen, Hempty. destruct (settle (tk seen _)) as [v|e]; [discriminate Hfails|].
  cbn [ret]. cbv beta iota. unfold bind. repeat advance; reflexivity.
Qed.
End Earliest.

(** C2, as amended.  Take any run of a registered handler.

    - For any response in its trace that is not [ok], other than a response
      to the priorities fetch, the handler returns (it throws nothing) an
      envelope with the error flag set; and if the body of that response
      could be read and no other request of the run failed, the envelope's
      text is ["Error: HTTP <status>: <body text>"].
    - When fetches that an aggregate starts together fail, the envelope is
      the error envelope of one of the failures, and of one that settles no
      later than any other.
    - A failure of the priorities fetch of [get_metadata], in whatever way,
      is absorbed: the result of the run is the result it has when the
      tracker answers that fetch with an empty list of priorities and every
      other request as before. *)
Theorem remote_failure_is_reported `{Runtime} (g : Globals) name shape handler
    (args : obj) (tk : Tracker) :
  (name, (shape, handler)) ∈ tools g ->
  let this := redmineClient g in
  let run := handler args tk initial in
  (forall pre req rep post response,
      trace run.2 = (pre ++ (req, rep) :: post)%list ->
      outcome rep = Return response -> ok response = false ->
      req_url req <> priorities_url this ->
      exists env, run.1 = Return env /\ isError env = true
        /\ forall errorText, body_text response = Return errorText ->
             Forall (fun x => is_Return (settle x.2) = true) (pre ++ post)%list ->
             content env =
               [{| type := "text";
                   text := Some ("Error: HTTP "
                                 +:+ ToString (VNum (Int (status response)))
                                 +:+ ": " +:+ errorText) |}])
  /\ (let entries := fan_out this (concurrent name) tk [] in
      (exists x, x ∈ entries /\ is_Return (settle x.2) = false) ->
      exists req rep e,
        (req, rep) ∈ entries /\ settle rep = Throw e
        /\ run.1 = Return (error_result e)
        /\ forall req' rep', (req', rep') ∈ entries ->
             is_Return (settle rep') = false ->
             (latency rep <= latency rep')%nat)
  /\ (name = "get_metadata" ->
      forall tk',
        let seen := map (request_of this) (concurrent name) in
        (forall seen req,
            req_url req <> priorities_url this -> tk' seen req = tk seen req) ->
        is_Return (settle (tk seen (request_of this GetIssuePriorities))) = false ->
        settle (tk' seen (request_of this GetIssuePriorities)) =
          Return (VObj [("issue_priorities", VArr [])]) ->
        run.1 = (handler args tk' initial).1).
Proof.
  intros Hin. cbv zeta. split; [|split].
  - apply registered in Hin.
    repeat destruct Hin as [Hin|Hin]; subst handler;
      [apply create_issue_reports | apply update_issue_reports
      | apply list_projects_reports | apply list_trackers_statuses_reports
      | apply read_issue_reports | apply add_issue_note_reports
      | apply transition_issue_reports | apply find_issues_reports
      | apply add_attachment_reports | apply get_metadata_reports].
  - which_tool Hin;
      try (intros (x & Hx & _); apply elem_of_nil in Hx; contradiction);
      intros Hfails;
      destruct (earliest_failure _ 0%nat Hfails)
        as (req & rep & e & Hfr & Hentry & Hsettle & Hearliest);
      exists req, rep, e; (split; [exact Hentry|]); (split; [exact Hsettle|]);
      (split; [|exact Hearliest]).
    + apply (list_trackers_statuses_earliest g args tk e _ Hfr).
    + apply (get_metadata_earliest g args tk e _ Hfr).
  - which_tool Hin; intros Hname; try discriminate Hname.
    intros tk'. apply priorities_absorbed.
Qed.

Lemma remote_failure_is_reported_witness :
  (exists env,
      (@read_issue node_runtime Example.with_default [("issue_id", VNum (Int 7))]
         Example.missing initial).1 = Return env
      /\ isError env = true
      /\ content env =
           [{| type := "text"; text := Some "Error: HTTP 404: Not Found" |}])
  /\ (@get_metadata node_runtime Example.with_default [] Example.no_priorities
        initial).1
     = (@get_metadata node_runtime Example.with_default [] Example.empty_priorities
          initial).1.
Proof.
  split.
  - destruct (proj1 (@remote_failure_is_reported node_runtime Example.with_default
                       "read_issue" read_issue_schema
                       (@read_issue node_runtime Example.with_default)
                       [("issue_id", VNum (Int 7))] Example.missing
                       ltac:(unfold tools; in_list))
                [] _ _ [] _ eq_refl eq_refl eq_refl)
      as (env & Hrun & Herr & Htext).
    + vm_compute. discriminate.
    + exists env. split; [exact Hrun|]. split; [exact Herr|].
      apply (Htext "Not Found" eq_refl). constructor.
  - apply (proj2 (proj2 (@remote_failure_is_reported node_runtime
                           Example.with_default "get_metadata" []
                           (@get_metadata node_runtime Example.with_default)
                           [] Example.no_priorities
                           ltac:(unfold tools; in_list)))
             eq_refl Example.empty_priorities).
    + intros seen req Hurl. unfold Example.empty_priorities, Example.no_priorities.
      destruct (String.eqb (req_url req) _) eqn:E; [|reflexivity].
      apply String.eqb_eq in E. contradiction.
    + reflexivity.
    + reflexivity.
Defined.

(** C2 as stated fails.  The priorities fetch of [get_metadata] is answered
    404, and the envelope is a success envelope.  And when the two fetches
    of [list_trackers_statuses] both fail, the one for the trackers by a
    transport failure that settles first and the one for the statuses by a
    404, the envelope carries the message of the transport failure: neither
    the status code nor the body text of the 404. *)
Lemma priorities_failure_is_swallowed :
  (let run := @get_metadata node_runtime Example.with_default []
                Example.no_priorities initial in
   (exists req rep response,
       (req, rep) ∈ trace run.2 /\ outcome rep = Return response
       /\ status response = 404 /\ ok response = false)
   /\ exists env, run.1 = Return env /\ isError env = false)
  /\ (let run := @list_trackers_statuses node_runtime Example.with_default []
                   Example.unreachable_trackers initial in
      (exists req rep response,
          (req, rep) ∈ trace run.2 /\ outcome rep = Return response
          /\ status response = 404 /\ ok response = false
          /\ body_text response = Return "Not Found")
      /\ run.1 = Return (error_result (mkError "fetch failed"))).
Proof.
  split; split.
  - exists (@request_of node_runtime (redmineClient Example.with_default) GetIssuePriorities),
      Example.not_found.
    eexists. split; [|split; [reflexivity|split; reflexivity]].
    set (tr := trace _). vm_compute in tr. subst tr. in_list.
  - eexists. split; reflexivity.
  - exists (@request_of node_runtime (redmineClient Example.with_default) GetIssueStatuses),
      {| latency := 2; outcome := outcome Example.not_found |}.
    eexists.
    split; [|split; [reflexivity|split; [reflexivity|split; reflexivity]]].
    set (tr := trace _). vm_compute in tr. subst tr. in_list.
  - reflexivity.
Qed.

(** ** Argument validation *)

Section Validation.
Context `{Runtime}.

Lemma parse_is_Some (shape : Shape) (data : obj) :
  is_Some (parse shape data) <->
  Forall (fun kt => accepts kt.2 (obj_get kt.1 data) = true) shape.
Proof.
  induction shape as [|[k t] shape IH]; cbn [parse].
  - split; [constructor|eauto].
  - rewrite Forall_cons. cbn [fst snd].
    destruct (accepts t (obj_get k data)).
    + destruct (parse shape data) as [rest|]; cbn.
      * split; [intros _; split; [reflexivity|apply IH; eauto]|eauto].
      * split; [intros [? [=]]|intros [_ HF]; apply IH in HF as [? [=]]].
    + split; [intros [? [=]]|intros [[=] _]].
Qed.

Lemma parse_rejects (shape : Shape) (data : obj) key t :
  (key, t) ∈ shape -> accepts t (obj_get key data) = false ->
  parse shape data = None.
Proof.
  intros Hin Hacc. destruct (parse shape data) as [args|] eqn:E; [|reflexivity].
  assert (HS : is_Some (parse shape data)) by eauto.
  apply parse_is_Some in HS. rewrite Forall_forall in HS.
  specialize (HS _ Hin). cbn [fst snd] in HS. congruence.
Qed.

Lemma accepts_finite (t : ZodType) (n : number) :
  base t = ZodNumber -> is_infinite n = false -> accepts t (VNum n) = true.
Proof. unfold accepts. intros -> ->. reflexivity. Qed.

Lemma accepts_any_finite (t : ZodType) (n m : number) :
  is_infinite n = false -> is_infinite m = false ->
  accepts t (VNum n) = accepts t (VNum m).
Proof. unfold accepts. intros -> ->. reflexivity. Qed.

Lemma parse_any_finite (shape : Shape) (data : obj) key n m :
  is_infinite n = false -> is_infinite m = false ->
  is_Some (parse shape (prop_set key (VNum n) data)) ->
  is_Some (parse shape (prop_set key (VNum m) data)).
Proof.
  intros Hn Hm. rewrite !parse_is_Some, !Forall_forall. intros HF [k t] Hin.
  specialize (HF _ Hin). cbn [fst snd] in *.
  destruct (decide (k = key)) as [->|Hne].
  - rewrite obj_get_prop_set in *. rewrite <- HF. apply accepts_any_finite; assumption.
  - rewrite obj_get_prop_set_ne in * by exact Hne. exact HF.
Qed.

(** The parsed arguments have, under the keys of the schema, the values of
    the arguments. *)
Lemma parse_keeps (shape : Shape) (data args : obj) (key : string) :
  parse shape data = Some args ->
  obj_get key args =
    if existsb (String.eqb key) (map fst shape) then obj_get key data
    else VUndefined.
Proof.
  revert args. induction shape as [|[k t] shape IH]; intros args; cbn [parse].
  - intros [= <-]. reflexivity.
  - destruct (accepts t (obj_get k data)); [|discriminate].
    destruct (parse shape data) as [rest|]; [|discriminate].
    cbn [mbind option_bind]. intros [= <-]. cbn [map fst existsb].
    specialize (IH rest eq_refl).
    destruct (String.eqb key k) eqn:E; cbn [orb].
    + apply String.eqb_eq in E as ->.
      destruct (is_undefined (obj_get k data) && negb (obj_has k data)) eqn:Hdrop.
      * rewrite IH. apply andb_prop in Hdrop as [Hu _].
        destruct (obj_get k data); try discriminate Hu.
        destruct (existsb _ _); reflexivity.
      * unfold obj_get at 1. cbn [prop_lookup]. rewrite String.eqb_refl. reflexivity.
    + destruct (is_undefined (obj_get k data) && negb (obj_has k data)); [exact IH|].
      unfold obj_get at 1. cbn [prop_lookup]. rewrite E. exact IH.
Qed.

Lemma parse_keeps_key (shape : Shape) (data args : obj) key t :
  parse shape data = Some args -> (key, t) ∈ shape ->
  obj_get key args = obj_get key data.
Proof.
  intros Hparse Hin. rewrite (parse_keeps shape data args key Hparse).
  replace (existsb (String.eqb key) (map fst shape)) with true; [reflexivity|].
  symmetry. apply existsb_exists. exists key. split; [|apply String.eqb_refl].
  apply list_elem_of_In, list_elem_of_fmap. exists (key, t). split; [reflexivity|exact Hin].
Qed.

Lemma prop_lookup_elem {V} (k : string) (v : V) (o : list (string * V)) :
  prop_lookup k o = Some v -> (k, v) ∈ o.
Proof.
  induction o as [|[k' v'] o IH]; cbn [prop_lookup]; [discriminate|].
  destruct (String.eqb k k') eqn:E.
  - apply String.eqb_eq in E as ->. intros [= ->]. left.
  - intros Hl. right. apply IH, Hl.
Qed.

(** A value that is defined is the value of a field. *)
Lemma obj_get_elem (k : string) (v : value) (o : obj) :
  obj_get k o = v -> v <> VUndefined -> (k, v) ∈ o.
Proof.
  unfold obj_get. destruct (prop_lookup k o) as [x|] eqn:E; cbn.
  - intros <- _. apply prop_lookup_elem, E.
  - intros <- Hv. contradiction.
Qed.

(** The pair of a field that is defined is among the pairs of a query. *)
Lemma query_pairs_elem (params : obj) (pairs : list string) key v :
  query_pairs params = Return pairs -> (key, v) ∈ params -> v <> VUndefined ->
  exists encoded,
    encodeURIComponent (ToString v) = Return encoded
    /\ (key +:+ "=" +:+ encoded) ∈ pairs.
Proof.
  intros Hq Hin Hv. revert pairs Hq.
  induction params as [|[k x] params IH]; intros pairs Hq.
  - apply elem_of_nil in Hin. contradiction.
  - apply elem_of_cons in Hin as [[= <- <-]|Hin].
    + rewrite (query_pairs_defined key v params Hv) in Hq.
      destruct (encodeURIComponent (ToString v)) as [encoded|]; [|discriminate Hq].
      destruct (query_pairs params) as [ps|]; [|discriminate Hq].
      injection Hq as <-. exists encoded. split; [reflexivity|left].
    + assert (Hcase : x = VUndefined \/ x <> VUndefined)
        by (destruct x; first [left; reflexivity | right; discriminate]).
      destruct Hcase as [->|Hx].
      * cbn [query_pairs] in Hq. apply (IH Hin pairs Hq).
      * rewrite (query_pairs_defined k x params Hx) in Hq.
        destruct (encodeURIComponent (ToString x)); [|discriminate Hq].
        destruct (query_pairs params) as [ps|]; [|discriminate Hq].
        injection Hq as <-.
        destruct (IH Hin ps eq_refl) as (encoded & Henc & Hps).
        exists encoded. split; [exact Henc|right; exact Hps].
Qed.

Variable g : Globals.
Variable tk : Tracker.

Lemma perform_requests op st :
  is_Return (endpoint op) = true ->
  requests (perform (redmineClient g) op tk st).2 =
    (requests st ++ [request_of (redmineClient g) op])%list.
Proof. intros Hop. rewrite perform_run by op_ok || exact Hop. apply requests_after. Qed.

Lemma field_state (k : string) (m : M value) st :
  (field k m tk st).2 = (m tk st).2.
Proof.
  unfold field, bind. destruct (m tk st) as [[v|e] st']; [|reflexivity].
  rewrite settled_run. destruct (get_prop v k); reflexivity.
Qed.

(** A tool that begins with an operation and then reads the issue. *)
Lemma then_reread op id st :
  is_Return (endpoint op) = true ->
  exists rest,
    requests
      ((do! perform (redmineClient g) op in
        field "issue" (perform (redmineClient g) (GetIssue id))) tk st).2 =
      (requests st ++ request_of (redmineClient g) op :: rest)%list.
Proof.
  intros Hop. unfold bind. rewrite perform_run by op_ok || exact Hop. cbv zeta.
  destruct (settle _).
  - rewrite field_state, perform_requests, requests_after, <- app_assoc by reflexivity.
    eexists. reflexivity.
  - cbn [snd]. rewrite requests_after. eexists. reflexivity.
Qed.
End Validation.

(** Comparisons of string literals. *)
Ltac eqb_literals :=
  repeat match goal with
    | |- context [String.eqb ?a ?b] =>
        let r := eval vm_compute in (String.eqb a b) in
        lazymatch r with
        | true => change (String.eqb a b) with true
        | false => change (String.eqb a b) with false
        end
    end.

(** The keys of a schema, one by one; those of strings are set aside. *)
Ltac schema_keys Hin Hbase :=
  rewrite ?elem_of_cons, elem_of_nil in Hin;
  repeat destruct Hin as [Hin|Hin]; try contradiction;
  injection Hin as -> ->; try discriminate Hbase.

Section Forwarding.
Context `{Runtime}.
Variable g : Globals.
Variable tk : Tracker.

Lemma lookup_registered name shape handler :
  prop_lookup name (tools g) = Some (shape, handler) ->
  (name, (shape, handler)) ∈ tools g.
Proof. apply prop_lookup_elem. Qed.

Lemma registered_shape name shape handler :
  (name, (shape, handler)) ∈ tools g ->
  (name = "create_issue" /\ shape = create_issue_schema)
  \/ (name = "update_issue" /\ shape = update_issue_schema)
  \/ (name = "list_projects" /\ shape = [])
  \/ (name = "list_trackers_statuses" /\ shape = [])
  \/ (name = "read_issue" /\ shape = read_issue_schema)
  \/ (name = "add_issue_note" /\ shape = add_issue_note_schema)
  \/ (name = "transition_issue" /\ shape = transition_issue_schema)
  \/ (name = "find_issues" /\ shape = find_issues_schema)
  \/ (name = "add_attachment" /\ shape = add_attachment_schema)
  \/ (name = "get_metadata" /\ shape = []).
Proof.
  unfold tools. rewrite !elem_of_cons, elem_of_nil.
  intros Hin; repeat destruct Hin as [Hin|Hin]; try contradiction;
    inversion Hin; tauto.
Qed.

Lemma create_issue_requests args st :
  requests (create_issue g args tk st).2 =
    (requests st
     ++ if lacks_project g "create_issue" args then []
        else [request_of (redmineClient g) (CreateIssue (project_params g args))])%list.
Proof.
  rewrite create_issue_responds. destruct (lacks_project _ _ _); cbn [snd].
  - rewrite app_nil_r. reflexivity.
  - rewrite field_state. apply perform_requests. reflexivity.
Qed.

Lemma find_issues_requests args st :
  requests (find_issues g args tk st).2 =
    (requests st
     ++ match query_pairs args with
        | Return pairs =>
            [build (redmineClient g) ("issues.json?" +:+ String.concat "&" pairs)
               GET VUndefined None false]
        | Throw _ => []
        end)%list.
Proof.
  rewrite find_issues_responds. cbv zeta. cbn [snd].
  rewrite perform_prepare. unfold prepare. cbn [endpoint].
  destruct (query_pairs args) as [pairs|e] eqn:Hq; cbn [result_map].
  - rewrite usable_server. cbv zeta. cbn [snd]. rewrite requests_after.
    cbn [request_of]. unfold path. cbn [endpoint]. rewrite Hq. reflexivity.
  - rewrite app_nil_r. reflexivity.
Qed.

(** The requests for the issue carry its id. *)
Lemma addressed_carries name args n (new : list Request) :
  obj_get "issue_id" args = VNum n ->
  Forall (addresses_issue g name args) new ->
  Forall (fun req =>
            req_url req = RedmineClient.baseUrl (redmineClient g) +:+ "uploads.json"
            \/ carries (redmineClient g) name "issue_id" n req) new.
Proof.
  intros Hid Hall. eapply Forall_impl; [exact Hall|].
  intros req [Hurl|(_ & _ & Hupload)]; [right|left; exact Hupload].
  unfold carries. eqb_literals. cbv iota. rewrite Hurl. unfold issue_path.
  rewrite Hid. reflexivity.
Qed.

Lemma first_is_sent (st : State) (run : result CallToolResult * State)
    (new rest : list Request) (req : Request) :
  requests run.2 = (requests st ++ new)%list ->
  requests run.2 = (requests st ++ req :: rest)%list ->
  new <> [].
Proof.
  intros Hnew Hfirst ->. rewrite Hnew in Hfirst.
  apply app_inv_head in Hfirst. discriminate Hfirst.
Qed.

Lemma update_issue_first args st :
  exists rest,
    requests (update_issue g args tk st).2 =
      (requests st
       ++ request_of (redmineClient g)
            (UpdateIssue (obj_get "issue_id" args) (prop_remove "issue_id" args))
          :: rest)%list.
Proof. rewrite update_issue_responds. cbv zeta. cbn [snd]. apply then_reread. reflexivity. Qed.

Lemma add_issue_note_first args st :
  exists rest,
    requests (add_issue_note g args tk st).2 =
      (requests st
       ++ request_of (redmineClient g)
            (AddIssueNote (obj_get "issue_id" args) (obj_get "notes" args))
          :: rest)%list.
Proof. rewrite add_issue_note_responds. cbv zeta. cbn [snd]. apply then_reread. reflexivity. Qed.

Lemma transition_issue_first args st :
  exists rest,
    requests (transition_issue g args tk st).2 =
      (requests st
       ++ request_of (redmineClient g)
            (TransitionIssue (obj_get "issue_id" args) (obj_get "status_id" args)
               (obj_get "notes" args))
          :: rest)%list.
Proof.
  rewrite transition_issue_responds. cbv zeta. cbn [snd]. apply then_reread. reflexivity.
Qed.

Lemma read_issue_first args st :
  exists rest,
    requests (read_issue g args tk st).2 =
      (requests st
       ++ request_of (redmineClient g) (GetIssue (obj_get "issue_id" args))
          :: rest)%list.
Proof.
  rewrite read_issue_responds. cbv zeta. cbn [snd].
  rewrite field_state, perform_requests by reflexivity. eexists. reflexivity.
Qed.

(** An issue id is in the path of every request for the issue. *)
Ltac issue_id_forwarded Haddresses Hfirst :=
  let new := fresh "new" in
  let Hnew := fresh "Hnew" in
  let Hall := fresh "Hall" in
  let rest := fresh "rest" in
  destruct Haddresses as (new & Hnew & _ & Hall);
  exists new; split; [exact Hnew|];
  unfold forwarded; eqb_literals; cbv iota;
  split; [eapply addressed_carries; eassumption|];
  intros _; destruct Hfirst as (rest & Hfirst);
  eapply first_is_sent; eassumption.

(** Another argument of [update_issue] or [transition_issue] is in the
    body of the first request. *)
Ltac body_forwarded Hfirst :=
  let rest := fresh "rest" in
  destruct Hfirst as (rest & Hfirst);
  eexists; split; [exact Hfirst|];
  unfold forwarded, carries; eqb_literals; cbv iota;
  split; [|intros _; discriminate];
  intros req rest' [= <- <-]; eexists; split; [reflexivity|].

Lemma create_issue_forwards args key t n st :
  (key, t) ∈ create_issue_schema -> base t = ZodNumber ->
  obj_get key args = VNum n ->
  exists new,
    requests (create_issue g args tk st).2 = (requests st ++ new)%list
    /\ forwarded (redmineClient g) "create_issue" key n new.
Proof.
  intros Hin Hbase Hkey. eexists. split; [apply create_issue_requests|].
  unfold create_issue_schema in Hin. schema_keys Hin Hbase;
    unfold forwarded, carries; eqb_literals; cbv iota;
    (split;
     [intros req rest Hnew;
      destruct (lacks_project g "create_issue" args); [discriminate Hnew|];
      injection Hnew as <- <-; eexists; (split; [reflexivity|]);
      unfold project_params;
      destruct (is_nullish (obj_get "project_id" args)) eqn:Hnone;
      [destruct (DEFAULT_PROJECT_ID g);
       [first [rewrite obj_get_prop_set_ne by discriminate; exact Hkey
              |rewrite Hkey in Hnone; discriminate Hnone]
       |exact Hkey]
      |exact Hkey]
     |intros [Hname|[Hname|[_ Hproject]]];
      try discriminate Hname; try discriminate Hproject;
      unfold lacks_project; rewrite Hkey; discriminate]).
Qed.

Lemma update_issue_forwards args key t n st :
  (key, t) ∈ update_issue_schema -> base t = ZodNumber ->
  obj_get key args = VNum n ->
  exists new,
    requests (update_issue g args tk st).2 = (requests st ++ new)%list
    /\ forwarded (redmineClient g) "update_issue" key n new.
Proof.
  intros Hin Hbase Hkey. pose proof (update_issue_first args st) as Hfirst.
  unfold update_issue_schema in Hin. schema_keys Hin Hbase.
  - issue_id_forwarded (update_issue_addresses g tk args st) Hfirst.
  - body_forwarded Hfirst. rewrite obj_get_prop_remove_ne by discriminate. exact Hkey.
  - body_forwarded Hfirst. rewrite obj_get_prop_remove_ne by discriminate. exact Hkey.
  - body_forwarded Hfirst. rewrite obj_get_prop_remove_ne by discriminate. exact Hkey.
  - body_forwarded Hfirst. rewrite obj_get_prop_remove_ne by discriminate. exact Hkey.
Qed.

Lemma read_issue_forwards args key t n st :
  (key, t) ∈ read_issue_schema -> base t = ZodNumber ->
  obj_get key args = VNum n ->
  exists new,
    requests (read_issue g args tk st).2 = (requests st ++ new)%list
    /\ forwarded (redmineClient g) "read_issue" key n new.
Proof.
  intros Hin Hbase Hkey. pose proof (read_issue_first args st) as Hfirst.
  unfold read_issue_schema in Hin. schema_keys Hin Hbase.
  issue_id_forwarded (read_issue_addresses g tk args st) Hfirst.
Qed.

Lemma add_issue_note_forwards args key t n st :
  (key, t) ∈ add_issue_note_schema -> base t = ZodNumber ->
  obj_get key args = VNum n ->
  exists new,
    requests (add_issue_note g args tk st).2 = (requests st ++ new)%list
    /\ forwarded (redmineClient g) "add_issue_note" key n new.
Proof.
  intros Hin Hbase Hkey. pose proof (add_issue_note_first args st) as Hfirst.
  unfold add_issue_note_schema in Hin. schema_keys Hin Hbase.
  issue_id_forwarded (add_issue_note_addresses g tk args st) Hfirst.
Qed.

Lemma transition_issue_forwards args key t n st :
  (key, t) ∈ transition_issue_schema -> base t = ZodNumber ->
  obj_get key args = VNum n ->
  exists new,
    requests (transition_issue g args tk st).2 = (requests st ++ new)%list
    /\ forwarded (redmineClient g) "transition_issue" key n new.
Proof.
  intros Hin Hbase Hkey. pose proof (transition_issue_first args st) as Hfirst.
  unfold transition_issue_schema in Hin. schema_keys Hin Hbase.
  - issue_id_forwarded (transition_issue_addresses g tk args st) Hfirst.
  - body_forwarded Hfirst. rewrite <- Hkey.
    destruct (truthy (obj_get "notes" args)); reflexivity.
Qed.

Lemma find_issues_forwards args key t n st :
  (key, t) ∈ find_issues_schema -> base t = ZodNumber ->
  obj_get key args = VNum n ->
  exists new,
    requests (find_issues g args tk st).2 = (requests st ++ new)%list
    /\ forwarded (redmineClient g) "find_issues" key n new.
Proof.
  intros Hin Hbase Hkey. eexists. split; [apply find_issues_requests|].
  assert (Hfield : forall pairs, query_pairs args = Return pairs ->
            exists encoded,
              encodeURIComponent (ToString (VNum n)) = Return encoded
              /\ (key +:+ "=" +:+ encoded) ∈ pairs).
  { intros pairs Hq. apply (query_pairs_elem args pairs key (VNum n) Hq).
    - apply obj_get_elem; [exact Hkey|discriminate].
    - discriminate. }
  unfold find_issues_schema in Hin. schema_keys Hin Hbase;
    unfold forwarded, carries; eqb_literals; cbv iota;
    (split; [|intros [Hname|[Hname|[Hname _]]]; discriminate Hname]);
    intros req rest Hnew;
    (destruct (query_pairs args) as [pairs|] eqn:Hq; [|discriminate Hnew]);
    injection Hnew as <- <-;
    destruct (Hfield pairs eq_refl) as (encoded & Henc & Hpair);
    exists encoded, pairs; (split; [exact Henc|]); (split; [exact Hpair|]);
    reflexivity.
Qed.

Lemma add_attachment_forwards args key t n st :
  (key, t) ∈ add_attachment_schema -> base t = ZodNumber ->
  obj_get key args = VNum n ->
  exists new,
    requests (add_attachment g args tk st).2 = (requests st ++ new)%list
    /\ forwarded (redmineClient g) "add_attachment" key n new.
Proof.
  intros Hin Hbase Hkey.
  unfold add_attachment_schema in Hin. schema_keys Hin Hbase.
  destruct (add_attachment_addresses g tk args st) as (new & Hnew & _ & Hall).
  exists new. split; [exact Hnew|].
  unfold forwarded. eqb_literals. cbv iota.
  split; [eapply addressed_carries; eassumption|].
  intros Hname. exfalso. apply Hname. reflexivity.
Qed.

Lemma every_tool_forwards name shape handler args key t n st :
  (name, (shape, handler)) ∈ tools g ->
  (key, t) ∈ shape -> base t = ZodNumber ->
  obj_get key args = VNum n ->
  exists new,
    requests (handler args tk st).2 = (requests st ++ new)%list
    /\ forwarded (redmineClient g) name key n new.
Proof.
  intros Hin Hkeys Hbase Hkey.
  pose proof (registered_shape name shape handler Hin) as Hshape.
  which_tool Hin;
    repeat (destruct Hshape as [[Hname Hshape]|Hshape]; [try discriminate Hname|]);
    try (destruct Hshape as [Hname Hshape]; try discriminate Hname);
    subst shape;
    try (apply elem_of_nil in Hkeys; contradiction);
    eauto using create_issue_forwards, update_issue_forwards, read_issue_forwards,
      add_issue_note_forwards, transition_issue_forwards, find_issues_forwards,
      add_attachment_forwards.
Qed.
End Forwarding.

(** C7, as amended.  The schemas declare every id as [z.number()], so
    validation looks at the type of an id and not at its value.  For a
    registered tool:

    - arguments in which a number of the schema is not a number that
      [z.number()] takes (it is no number, or a required one is missing, or
      it is an infinity and the installed [zod] refuses infinities) are
      refused, and the state, hence the trace, is unchanged: no request was
      issued;
    - [z.number()] takes every finite number, and whether arguments pass
      validation does not depend on which finite number a field is;
    - when the arguments pass validation, the handler is run on arguments
      with the same number, be it zero, negative or not an integer, and
      forwards it: an issue id is in the path of every request of the call
      for the issue, and any other number is in the first request of the
      call, in the JSON body or, for a search, in the query string. *)
Theorem validation_checks_types_only `{Runtime} (g : Globals) name shape handler
    (arguments : obj) (tk : Tracker) (st : State) :
  prop_lookup name (tools g) = Some (shape, handler) ->
  (forall key t, (key, t) ∈ shape -> base t = ZodNumber ->
     match obj_get key arguments with
     | VNum n => is_infinite n = true /\ zod_takes_infinity = false
     | VUndefined => is_optional t = false
     | _ => True
     end ->
     call_tool g name arguments tk st = (InvalidParams, st))
  /\ (forall key t n, (key, t) ∈ shape -> base t = ZodNumber ->
        is_infinite n = false -> accepts t (VNum n) = true)
  /\ (forall key n m, is_infinite n = false -> is_infinite m = false ->
        is_Some (parse shape (prop_set key (VNum n) arguments)) <->
        is_Some (parse shape (prop_set key (VNum m) arguments)))
  /\ (forall key t n args, (key, t) ∈ shape -> base t = ZodNumber ->
        obj_get key arguments = VNum n ->
        parse shape arguments = Some args ->
        obj_get key args = VNum n
        /\ call_tool g name arguments tk st =
             (Handled (handler args tk st).1, (handler args tk st).2)
        /\ exists new,
             requests (handler args tk st).2 = (requests st ++ new)%list
             /\ forwarded (redmineClient g) name key n new).
Proof.
  intros Hlookup. split; [|split; [|split]].
  - intros key t Hin Hbase Hbad. unfold call_tool. rewrite Hlookup.
    rewrite (parse_rejects shape arguments key t Hin); [reflexivity|].
    unfold accepts. rewrite Hbase.
    destruct (obj_get key arguments); try reflexivity; try exact Hbad.
    destruct Hbad as [-> ->]. reflexivity.
  - intros key t n _ Hbase Hfinite. apply accepts_finite; assumption.
  - intros key n m Hn Hm. split; apply parse_any_finite; assumption.
  - intros key t n args Hin Hbase Hkey Hparse.
    assert (Hkept : obj_get key args = VNum n).
    { rewrite (parse_keeps_key shape arguments args key t Hparse Hin). exact Hkey. }
    split; [exact Hkept|]. split.
    + unfold call_tool. rewrite Hlookup, Hparse.
      destruct (handler args tk st). reflexivity.
    + apply lookup_registered in Hlookup.
      apply (every_tool_forwards g tk name shape handler args key t n st);
        assumption.
Qed.

Lemma validation_checks_types_only_witness :
  @call_tool node_runtime Example.with_default "read_issue"
    [("issue_id", VStr "seven")] Example.obliging initial = (InvalidParams, initial)
  /\ exists new,
       requests (@update_issue node_runtime Example.with_default
                   [("issue_id", VNum (Int 7)); ("status_id", VNum (Int 0))]
                   Example.obliging initial).2 = ([] ++ new)%list
       /\ @forwarded node_runtime (redmineClient Example.with_default)
            "update_issue" "status_id" (Int 0) new.
Proof.
  split.
  - apply (proj1 (@validation_checks_types_only node_runtime Example.with_default
                    "read_issue" read_issue_schema
                    (@read_issue node_runtime Example.with_default)
                    [("issue_id", VStr "seven")] Example.obliging initial eq_refl)
             "issue_id" z.number).
    + in_list.
    + reflexivity.
    + exact I.
  - apply (proj2 (proj2 (proj2
             (@validation_checks_types_only node_runtime Example.with_default
                "update_issue" update_issue_schema
                (@update_issue node_runtime Example.with_default)
                [("issue_id", VNum (Int 7)); ("status_id", VNum (Int 0))]
                Example.obliging initial eq_refl)))
             "status_id" (z.optional z.number) (Int 0)
             [("issue_id", VNum (Int 7)); ("status_id", VNum (Int 0))]).
    + unfold update_issue_schema. in_list.
    + reflexivity.
    + reflexivity.
    + reflexivity.
Defined.

(** C7 as stated fails.  Ids that are not positive integers pass
    validation, and a request is issued with each of them: in the path, in
    the body and in the query string. *)
Lemma ids_need_not_be_positive_integers :
  let call (name : string) (arguments : obj) :=
    @call_tool node_runtime Example.with_default name arguments
      Example.obliging initial in
  let read (id : number) := call "read_issue" [("issue_id", VNum id)] in
  (read (Int 0)).1 <> InvalidParams
  /\ map req_url (requests (read (Int 0)).2) = ["https://redmine.example/issues/0.json"]
  /\ (read (Int (-5))).1 <> InvalidParams
  /\ map req_url (requests (read (Int (-5))).2) = ["https://redmine.example/issues/-5.json"]
  /\ (read (NonInt "1.5")).1 <> InvalidParams
  /\ map req_url (requests (read (NonInt "1.5")).2) = ["https://redmine.example/issues/1.5.json"]
  /\ (call "create_issue" [("project_id", VNum (Int (-1))); ("subject", VStr "s")]).1
     <> InvalidParams
  /\ map req_body
       (requests
          (call "create_issue" [("project_id", VNum (Int (-1))); ("subject", VStr "s")]).2)
     = [of_text (@JSON_stringify node_runtime
                   (VObj [("issue", VObj [("project_id", VNum (Int (-1)));
                                          ("subject", VStr "s")])]))]
  /\ (call "find_issues" [("status_id", VNum (Int 0))]).1 <> InvalidParams
  /\ map req_url (requests (call "find_issues" [("status_id", VNum (Int 0))]).2)
     = ["https://redmine.example/issues.json?status_id=0"].
Proof.
  cbv zeta. repeat split; try (vm_compute; discriminate); vm_compute; reflexivity.
Qed.
